(** * get_instance_details.py: instance-type records and their offerings

    A shallow embedding of [get_instance_details.py], the script that
    lists the instance types of some EC2 families, attaches hardware data
    and prices to each of them and writes the records to a JSON file.

    - Python [int] is [Z]; Python [float] is the Standard Library's
      [spec_float] (sign, mantissa, exponent, the zeros, the infinities and
      NaN), compared with [SFltb] as IEEE 754 does; [int / int] rounds to
      the nearest float, and [repr] of a float is its shortest decimal text
      that reads back.
    - Text is [string].  [str.lower] and the [\d] of [re] are modelled on
      ASCII text.
    - A decoded JSON answer is a record with one [option] field per key the
      script reads ([None]: the key is absent).
    - Exceptions and [sys.exit] are the constructors of [outcome].
    - The AWS CLI is a [world]: one function per subcommand, from the
      arguments the script passes to what [subprocess.run] and [json.loads]
      make of the answer.
    - [as_completed] yields the futures in an order that the script does
      not choose: the order is a parameter, and the properties hold for
      every order.
    - [parser.parse_args()] and [open(output_file, "w")] are taken by what
      they do: the arguments parsed or the exit of the parser, the file
      opened or [OSError].
    - The diagnostics printed on standard error are left out. *)

From Stdlib Require Import ZArith Lia List Ascii.
From Stdlib Require Import Floats.SpecFloat.
From stdpp Require Import base option list strings pretty gmap.

Open Scope string_scope.
Open Scope list_scope.

(** ** Exceptions and process exit *)

Inductive exn : Type :=
  | IndexError
  | KeyError
  | ValueError
  | TypeError
  | OverflowError
  | OSError.

(** What a call does: it returns, it raises an [Exception], or it leaves
    through [sys.exit] ([SystemExit] is not an [Exception]). *)
Inductive outcome (A : Type) : Type :=
  | Ret (a : A)
  | Raise (e : exn)
  | SysExit (code : Z).

Arguments Ret {A} a.
Arguments Raise {A} e.
Arguments SysExit {A} code.

Global Instance outcome_ret : MRet outcome := λ A a, Ret a.

Global Instance outcome_bind : MBind outcome := λ A B k m,
  match m with
  | Ret a => k a
  | Raise e => Raise e
  | SysExit c => SysExit c
  end.

(** ** Python values *)

Definition pyfloat : Type := spec_float.

Definition float_zero : pyfloat := S754_zero false.
Definition float_inf : pyfloat := S754_infinity false.

(** [bool(x)] of a float: false exactly for the two zeros. *)
Definition float_truthy (x : pyfloat) : bool :=
  match x with
  | S754_zero _ => false
  | _ => true
  end.

(** [bool(x)] where [x] is a float or [None]. *)
Definition price_truthy (x : option pyfloat) : bool :=
  match x with
  | Some f => float_truthy f
  | None => false
  end.

(** A JSON value handed to [float()], by what [float()] makes of it: a
    number or a text that reads as the float [f]; a text that does not read
    as a float; a value that is neither a number nor a text ([null], an
    array, an object); an integer beyond the range of the floats. *)
Inductive float_arg : Type :=
  | Parses (f : pyfloat)
  | Unparsable
  | WrongType
  | TooLarge.

(** [float(d.get(key, 0))] *)
Definition float_of (x : option float_arg) : outcome pyfloat :=
  match x with
  | None => Ret float_zero
  | Some (Parses f) => Ret f
  | Some Unparsable => Raise ValueError
  | Some WrongType => Raise TypeError
  | Some TooLarge => Raise OverflowError
  end.

(** [str.lower] on ASCII text. *)
Definition lower_ascii (c : ascii) : ascii :=
  let n := N_of_ascii c in
  if ((65 <=? n) && (n <=? 90))%N then ascii_of_N (n + 32) else c.

Fixpoint lower (s : string) : string :=
  match s with
  | EmptyString => EmptyString
  | String c s' => String (lower_ascii c) (lower s')
  end.

(** [str(n)] of an [int]. *)
Definition str (n : Z) : string := pretty n.

(** *** Division of integers and the text of a float *)

(** [a / 1024] for an [int] [a]: the float nearest to the quotient, ties
    to the even mantissa; [OverflowError] when it is beyond the floats. *)
Definition div_1024 (a : Z) : outcome pyfloat :=
  match binary_normalize 53 1024 a (-10) false with
  | S754_infinity _ => Raise OverflowError
  | q => Ret q
  end.

(** [compare (d * 10^k) (t * 2^e)] for exponents of either sign. *)
Definition compare_scaled (d k t e : Z) : comparison :=
  (d * 10 ^ Z.max k 0 * 2 ^ Z.max (- e) 0 ?= t * 2 ^ Z.max e 0 * 10 ^ Z.max (- k) 0)%Z.

(** The integer [q] with [10^q <= m * 2^e < 10^(q+1)]. *)
Definition decimal_exponent (m : positive) (e : Z) : Z :=
  let q0 := (((Z.log2 (Zpos m) + e) * 30103) / 100000)%Z in
  let le_x q := match compare_scaled 1 q (Zpos m) e with Gt => false | _ => true end in
  if le_x (q0 + 1)%Z then (q0 + 1)%Z else if le_x q0 then q0 else (q0 - 1)%Z.

(** Whether the decimal [d * 10^k] reads back as the float [m * 2^e]: it
    lies between the midpoints to the two neighbouring floats, and the
    midpoints themselves count when [m] is even. *)
Definition reads_back (m : positive) (e : Z) (d k : Z) : bool :=
  let closer_below := (Zpos m =? 2 ^ 52)%Z && (-1074 <? e)%Z in
  let low := (4 * Zpos m - (if closer_below then 1 else 2))%Z in
  let high := (4 * Zpos m + 2)%Z in
  let even := Z.even (Zpos m) in
  match compare_scaled d k low (e - 2) with
  | Gt => true
  | Eq => even
  | Lt => false
  end
  &&
  match compare_scaled d k high (e - 2) with
  | Lt => true
  | Eq => even
  | Gt => false
  end.

(** Among the decimals of [n] digits that read back as [m * 2^e], the
    nearest to it (of two at the same distance, the even one), if there is
    one; [q] is the decimal exponent of [m * 2^e]. *)
Definition shortest_at (m : positive) (e q : Z) (n : Z) : option (Z * Z) :=
  let k := (q - (n - 1))%Z in
  let d_lo := ((Zpos m * 2 ^ Z.max e 0 * 10 ^ Z.max (- k) 0)
               / (10 ^ Z.max k 0 * 2 ^ Z.max (- e) 0))%Z in
  let d_hi := (d_lo + 1)%Z in
  match reads_back m e d_lo k, reads_back m e d_hi k with
  | true, false => Some (d_lo, k)
  | false, true => Some (d_hi, k)
  | true, true =>
      match compare_scaled (2 * d_lo + 1) k (2 * Zpos m) e with
      | Gt => Some (d_lo, k)
      | Lt => Some (d_hi, k)
      | Eq => Some (if Z.even d_lo then d_lo else d_hi, k)
      end
  | false, false => None
  end.

(** The decimal with the fewest digits, from [n] digits on. *)
Fixpoint shortest_from (fuel : nat) (m : positive) (e q : Z) (n : Z) : Z * Z :=
  match fuel with
  | O => (Zpos m, e)
  | S fuel' =>
      match shortest_at m e q n with
      | Some dk => dk
      | None => shortest_from fuel' m e q (n + 1)
      end
  end.

Fixpoint strip_zeros (fuel : nat) (d k : Z) : Z * Z :=
  match fuel with
  | O => (d, k)
  | S fuel' => if (d mod 10 =? 0)%Z then strip_zeros fuel' (d / 10)%Z (k + 1)%Z else (d, k)
  end.

Definition zeros (n : Z) : string := String.concat "" (replicate (Z.to_nat n) "0").

Definition string_take (n : Z) (s : string) : string := String.substring 0 (Z.to_nat n) s.

Definition string_drop (n : Z) (s : string) : string :=
  String.substring (Z.to_nat n) (String.length s - Z.to_nat n) s.

(** The text of the positive float [m * 2^e]: its shortest digits, with an
    exponent when the decimal point would stand more than 16 places after
    the first digit or more than 4 before it. *)
Definition repr_finite (m : positive) (e : Z) : string :=
  let q := decimal_exponent m e in
  let '(d0, k0) := shortest_from 17 m e q 1 in
  let '(d, k) := strip_zeros 20 d0 k0 in
  let digits : string := pretty d in
  let nd := Z.of_nat (String.length digits) in
  let decpt := (nd + k)%Z in
  if ((decpt <=? -4) || (16 <? decpt))%Z
  then
    let x := (decpt - 1)%Z in
    let mantissa :=
      if (nd =? 1)%Z then digits else string_take 1 digits +:+ "." +:+ string_drop 1 digits in
    let xa : string := pretty (Z.abs x) in
    mantissa +:+ "e" +:+ (if (x <? 0)%Z then "-" else "+")
      +:+ (if (Z.abs x <? 10)%Z then "0" else "") +:+ xa
  else if (decpt <=? 0)%Z then "0." +:+ zeros (- decpt) +:+ digits
  else if (decpt <? nd)%Z then string_take decpt digits +:+ "." +:+ string_drop decpt digits
  else digits +:+ zeros (decpt - nd) +:+ ".0".

(** [repr(x)] of a float, which is also [f"{x}"]. *)
Definition float_repr (x : pyfloat) : string :=
  match x with
  | S754_zero false => "0.0"
  | S754_zero true => "-0.0"
  | S754_infinity false => "inf"
  | S754_infinity true => "-inf"
  | S754_nan => "nan"
  | S754_finite false m e => repr_finite m e
  | S754_finite true m e => "-" +:+ repr_finite m e
  end.

(** ** The AWS CLI *)

(** [subprocess.run(..., check=True)] followed by [json.loads]. *)
Inductive cli (A : Type) : Type :=
  | CliOk (json : A)
  | CalledProcessError
  | JSONDecodeError.

Arguments CliOk {A} json.
Arguments CalledProcessError {A}.
Arguments JSONDecodeError {A}.

Record processor_info : Type := {
  SupportedArchitectures : option (list string)
}.

Record vcpu_info : Type := { DefaultVCpus : option Z }.
Record memory_info : Type := { SizeInMiB : option Z }.
Record network_info : Type := { MaximumNetworkInterfaces : option Z }.

Record instance_info : Type := {
  InstanceType : option string;
  ProcessorInfo : option processor_info;
  SupportedPlatforms : option (list string);
  HypervisorType : option string;
  VCpuInfo : option vcpu_info;
  MemoryInfo : option memory_info;
  NetworkInfo : option network_info
}.

Record instance_types_data : Type := {
  InstanceTypes : option (list instance_info)
}.

Record zone_entry : Type := { ZoneName : option string }.

Record zones_data : Type := {
  AvailabilityZones : option (list zone_entry)
}.

Record price_info : Type := {
  AvailabilityZone : option string;
  SpotPrice : option float_arg
}.

Record spot_data : Type := {
  SpotPriceHistory : option (list price_info)
}.

Record price_per_unit : Type := { USD : option float_arg }.
Record price_dimension : Type := { pricePerUnit : option price_per_unit }.

Record term_info : Type := {
  priceDimensions : option (list (string * price_dimension))
}.

Record terms_data : Type := {
  OnDemand : option (list (string * term_info))
}.

Record product_data : Type := { terms : option terms_data }.

(** An element of ["PriceList"]: a text that [json.loads] decodes or
    rejects. *)
Inductive product_text : Type :=
  | BadJSON
  | Product (product_data_ : product_data).

Record pricing_data : Type := {
  PriceList : option (list product_text)
}.

(** The answers of the provider and of the file system.
    [describe_instance_types_filter region v] answers
    [--filters Name=instance-type,Values=v]; [open_for_writing path] tells
    whether [open(path, "w")] opens the file ([true]) or raises [OSError]. *)
Record world : Type := {
  describe_availability_zones : string → cli zones_data;
  describe_instance_types_filter : string → string → cli instance_types_data;
  describe_instance_types : string → string → cli instance_types_data;
  describe_spot_price_history : string → string → cli spot_data;
  pricing_get_products : string → string → cli pricing_data;
  open_for_writing : string → bool
}.

(** The empty dict used as a [.get] default. *)
Definition no_processor_info : processor_info := {| SupportedArchitectures := None |}.
Definition no_vcpu_info : vcpu_info := {| DefaultVCpus := None |}.
Definition no_memory_info : memory_info := {| SizeInMiB := None |}.
Definition no_network_info : network_info := {| MaximumNetworkInterfaces := None |}.
Definition no_price_per_unit : price_per_unit := {| USD := None |}.
Definition no_terms : terms_data := {| OnDemand := None |}.

(** ** The records the script builds *)

Record resources_t : Type := {
  cpu : string;
  memory : string;
  ephemeral_storage : string;
  pods : string
}.

Record instance_details : Type := {
  det_architecture : string;
  det_operatingSystems : list string;
  det_resources : resources_t
}.

Record requirement : Type := {
  key : string;
  operator : string;
  values : list string
}.

Record offering : Type := {
  Price : pyfloat;
  Available : bool;
  Requirements : list requirement
}.

Record instance_record : Type := {
  name : string;
  offerings : list offering;
  architecture : string;
  operatingSystems : list string;
  resources : resources_t
}.

(** The command line. *)
Record args_t : Type := {
  region : string;
  instance_families : list string;
  output : string;
  max_workers : Z
}.

(** What [parser.parse_args()] does with the command line: it returns the
    arguments, or it ends the process, with status 0 after printing the
    help ([-h], [--help]) and with status 2 on a command line that it
    rejects (no region, no family, a worker count that is not an integer,
    an option that it does not know).  A command line without a family is
    among those rejected ([nargs='+']): it is [UsageExit], not [Parsed]
    with an empty list of families. *)
Inductive parse_args_outcome : Type :=
  | Parsed (args : args_t)
  | HelpExit
  | UsageExit.

(** How the process ends: its exit status and the file it has written
    (path and records), if any.  An exception that nothing catches ends the
    process with status 1. *)
Record final : Type := {
  exit_status : Z;
  written : option (string * list instance_record)
}.

(** [run_aws_command]: both failures end the process with status 1. *)
Definition run_aws_command {A} (answer : cli A) : outcome A :=
  match answer with
  | CliOk json => Ret json
  | CalledProcessError => SysExit 1
  | JSONDecodeError => SysExit 1
  end.

(** [l[0]] *)
Definition first_item {A} (l : list A) : outcome A :=
  match l with
  | x :: _ => Ret x
  | [] => Raise IndexError
  end.

(** [d[key]] *)
Definition item {A} (v : option A) : outcome A :=
  match v with
  | Some x => Ret x
  | None => Raise KeyError
  end.

(** [bool(l)] of a list or of [None]. *)
Definition list_truthy {A} (l : option (list A)) : bool :=
  match l with
  | Some (_ :: _) => true
  | _ => false
  end.

Definition supported_architectures (info : instance_info) (dflt : list string) : list string :=
  default dflt (SupportedArchitectures (default no_processor_info (ProcessorInfo info))).

(** ** The size suffix of a family token

    [re.sub(r'\.\d+.*$', '', family)].  [.] matches every character but a
    newline, and [$] matches at the end of the text or before a newline that
    ends it. *)

Definition is_digit (c : ascii) : bool :=
  let n := N_of_ascii c in ((48 <=? n) && (n <=? 57))%N.

Definition newline : ascii := ascii_of_N 10.
Definition dot : ascii := ascii_of_N 46.

(** [.*$] from the start of [s]: [Some rest] when it matches, where [rest]
    is what follows the match (nothing, or the final newline). *)
Fixpoint match_to_end (s : string) : option string :=
  match s with
  | EmptyString => Some EmptyString
  | String c s' =>
      if bool_decide (c = newline)
      then (if bool_decide (s' = EmptyString) then Some s else None)
      else match_to_end s'
  end.

(** [\.\d+.*$] from the start of [s]. *)
Definition match_size_suffix (s : string) : option string :=
  match s with
  | String c (String d s') =>
      if bool_decide (c = dot) && is_digit d then match_to_end s' else None
  | _ => None
  end.

(** The leftmost match is removed; what follows it holds no further
    match. *)
Fixpoint sub_size_suffix (s : string) : string :=
  match s with
  | EmptyString => EmptyString
  | String c s' =>
      match match_size_suffix s with
      | Some rest => rest
      | None => String c (sub_size_suffix s')
      end
  end.

(** Whether a newline occurs in [s]. *)
Fixpoint has_newline (s : string) : bool :=
  match s with
  | EmptyString => false
  | String c s' => bool_decide (c = newline) || has_newline s'
  end.

(** Whether a dot followed by a digit occurs in [s]. *)
Fixpoint has_dot_digit (s : string) : bool :=
  match s with
  | EmptyString => false
  | String c s' =>
      match s' with
      | EmptyString => false
      | String d _ => (bool_decide (c = dot) && is_digit d) || has_dot_digit s'
      end
  end.

Global Instance requirement_eq_dec : EqDecision requirement.
Proof. solve_decision. Defined.

(** The requirements and the two kinds of Offering that
    [process_instance_type] builds. *)
Definition capacity_type_requirement (capacity_type : string) : requirement :=
  {| key := "karpenter.sh/capacity-type"; operator := "In"; values := [capacity_type] |}.

Definition zone_requirement (az : string) : requirement :=
  {| key := "topology.kubernetes.io/zone"; operator := "In"; values := [az] |}.

Definition spot_offering (price_ : pyfloat) (available_ : bool) (az : string) : offering :=
  {| Price := price_;
     Available := available_;
     Requirements := [capacity_type_requirement "spot"; zone_requirement az] |}.

Definition on_demand_offering (price_ : pyfloat) (az : string) : offering :=
  {| Price := price_;
     Available := true;
     Requirements := [capacity_type_requirement "on-demand"; zone_requirement az] |}.

(** ** A sample region

    One family, [g6], in a region of two zones. *)
Module Sample.

(** 0.25, 0.5 and 1.0 *)
Definition quarter : pyfloat := S754_finite false 4503599627370496 (-54).
Definition half : pyfloat := S754_finite false 4503599627370496 (-53).
Definition one : pyfloat := S754_finite false 4503599627370496 (-52).

Definition g6_xlarge : instance_info := {|
  InstanceType := Some "g6.xlarge";
  ProcessorInfo := Some {| SupportedArchitectures := Some ["x86_64"] |};
  SupportedPlatforms := None;
  HypervisorType := Some "nitro";
  VCpuInfo := Some {| DefaultVCpus := Some 4%Z |};
  MemoryInfo := Some {| SizeInMiB := Some 16384%Z |};
  NetworkInfo := Some {| MaximumNetworkInterfaces := Some 4%Z |}
|}.

(** The same, with an empty list of platforms. *)
Definition g6_xlarge_no_platform : instance_info := {|
  InstanceType := Some "g6.xlarge";
  ProcessorInfo := Some {| SupportedArchitectures := Some ["x86_64"] |};
  SupportedPlatforms := Some [];
  HypervisorType := Some "nitro";
  VCpuInfo := Some {| DefaultVCpus := Some 4%Z |};
  MemoryInfo := Some {| SizeInMiB := Some 16384%Z |};
  NetworkInfo := Some {| MaximumNetworkInterfaces := Some 4%Z |}
|}.

(** An instance type with an empty list of architectures: its
    enrichment raises [IndexError]. *)
Definition g6_2xlarge : instance_info := {|
  InstanceType := Some "g6.2xlarge";
  ProcessorInfo := Some {| SupportedArchitectures := Some [] |};
  SupportedPlatforms := None;
  HypervisorType := Some "nitro";
  VCpuInfo := Some {| DefaultVCpus := Some 8%Z |};
  MemoryInfo := Some {| SizeInMiB := Some 32768%Z |};
  NetworkInfo := None
|}.

Definition zones : zones_data := {|
  AvailabilityZones :=
    Some [ {| ZoneName := Some "us-west-2a" |}; {| ZoneName := Some "us-west-2b" |} ]
|}.

Definition all_azs : list string := ["us-west-2a"; "us-west-2b"].

(** Two prices for the first zone, a price of zero for the second. *)
Definition spot : spot_data := {|
  SpotPriceHistory := Some [
    {| AvailabilityZone := Some "us-west-2a"; SpotPrice := Some (Parses half) |};
    {| AvailabilityZone := Some "us-west-2a"; SpotPrice := Some (Parses quarter) |};
    {| AvailabilityZone := Some "us-west-2b"; SpotPrice := Some (Parses float_zero) |}
  ]
|}.

Definition pricing (usd : pyfloat) : pricing_data := {|
  PriceList := Some [
    BadJSON;
    Product {| terms := Some {| OnDemand := Some [
      ("JRTCKXETXF.6YS6EN2CT7",
       {| priceDimensions := Some [
            ("JRTCKXETXF.6YS6EN2CT7.6YS6EN2CT7",
             {| pricePerUnit := Some {| USD := Some (Parses usd) |} |})
          ] |})
    ] |} |}
  ]
|}.

(** Every path can be opened for writing but one, in a directory that does
    not exist. *)
Definition can_open (path : string) : bool :=
  negb (bool_decide (path = "missing-dir/out.json")).

Definition make_world (infos : list instance_info) (spot_ : cli spot_data)
    (pricing_ : cli pricing_data) : world := {|
  describe_availability_zones := λ _, CliOk zones;
  describe_instance_types_filter := λ _ v,
    if bool_decide (v = "g6.*")
    then CliOk {| InstanceTypes := Some infos |}
    else CliOk {| InstanceTypes := Some [] |};
  describe_instance_types := λ _ instance_type,
    CliOk {| InstanceTypes :=
               Some (filter (λ info, InstanceType info = Some instance_type) infos) |};
  describe_spot_price_history := λ _ _, spot_;
  pricing_get_products := λ _ _, pricing_;
  open_for_writing := can_open
|}.

Definition world_ok : world := make_world [g6_xlarge] (CliOk spot) (CliOk (pricing one)).
Definition world_free : world := make_world [g6_xlarge] (CliOk spot) (CliOk (pricing float_zero)).
Definition world_spot_down : world := make_world [g6_xlarge] CalledProcessError (CliOk (pricing one)).
Definition world_no_platform : world :=
  make_world [g6_xlarge_no_platform] (CliOk spot) (CliOk (pricing one)).
Definition world_two : world := make_world [g6_xlarge; g6_2xlarge] (CliOk spot) (CliOk (pricing one)).

Definition args : args_t := {|
  region := "us-west-2";
  instance_families := ["g6"];
  output := "instance_types.json";
  max_workers := 5
|}.

Definition args_m5 : args_t := {|
  region := "us-west-2";
  instance_families := ["m5"; "c7g.2xlarge"];
  output := "instance_types.json";
  max_workers := 5
|}.

Definition g6_resources : resources_t :=
  {| cpu := "4"; memory := "16.0Gi"; ephemeral_storage := "20Gi"; pods := "40" |}.

(** The record of [g6.xlarge] in [world_ok] and in [world_two]. *)
Definition g6_record : instance_record := {|
  name := "g6.xlarge";
  offerings := [
    spot_offering quarter true "us-west-2a";
    on_demand_offering one "us-west-2a";
    on_demand_offering one "us-west-2b"
  ];
  architecture := "amd64";
  operatingSystems := ["linux"];
  resources := g6_resources
|}.

(** Its record in [world_free]. *)
Definition g6_record_free : instance_record := {|
  name := "g6.xlarge";
  offerings := [spot_offering quarter true "us-west-2a"];
  architecture := "amd64";
  operatingSystems := ["linux"];
  resources := g6_resources
|}.

(** Its record in [world_spot_down]. *)
Definition g6_record_spot_down : instance_record := {|
  name := "g6.xlarge";
  offerings := [on_demand_offering one "us-west-2a"; on_demand_offering one "us-west-2b"];
  architecture := "amd64";
  operatingSystems := ["linux"];
  resources := g6_resources
|}.

(** An instance type for which the provider reports no processor. *)
Definition g6_4xlarge : instance_info := {|
  InstanceType := Some "g6.4xlarge";
  ProcessorInfo := None;
  SupportedPlatforms := Some ["Linux/UNIX"; "Windows"];
  HypervisorType := Some "nitro";
  VCpuInfo := None;
  MemoryInfo := None;
  NetworkInfo := None
|}.

Definition world_no_processor : world :=
  make_world [g6_4xlarge] (CliOk spot) (CliOk (pricing one)).

(** A region where the listing names [g6.8xlarge], which the hardware
    query does not know and whose spot prices do not parse. *)
Definition world_unknown : world := {|
  describe_availability_zones := λ _, CliOk zones;
  describe_instance_types_filter := λ _ _,
    CliOk {| InstanceTypes :=
               Some [g6_xlarge;
                     {| InstanceType := Some "g6.8xlarge"; ProcessorInfo := None;
                        SupportedPlatforms := None; HypervisorType := None;
                        VCpuInfo := None; MemoryInfo := None; NetworkInfo := None |}] |};
  describe_instance_types := λ _ instance_type,
    CliOk {| InstanceTypes :=
               Some (filter (λ info, InstanceType info = Some instance_type) [g6_xlarge]) |};
  describe_spot_price_history := λ _ instance_type,
    if bool_decide (instance_type = "g6.8xlarge")
    then CliOk {| SpotPriceHistory :=
                    Some [{| AvailabilityZone := Some "us-west-2a";
                             SpotPrice := Some Unparsable |}] |}
    else CliOk spot;
  pricing_get_products := λ _ _, CliOk (pricing one);
  open_for_writing := can_open
|}.

(** A region where the hardware query of [g6.2xlarge] fails. *)
Definition world_hardware_down : world := {|
  describe_availability_zones := λ _, CliOk zones;
  describe_instance_types_filter := λ _ _,
    CliOk {| InstanceTypes := Some [g6_xlarge; g6_2xlarge] |};
  describe_instance_types := λ _ instance_type,
    if bool_decide (instance_type = "g6.2xlarge")
    then CalledProcessError
    else CliOk {| InstanceTypes :=
                    Some (filter (λ info, InstanceType info = Some instance_type)
                            [g6_xlarge]) |};
  describe_spot_price_history := λ _ _, CliOk spot;
  pricing_get_products := λ _ _, CliOk (pricing one);
  open_for_writing := can_open
|}.

(** A region where the family [m5] has no instance type. *)
Definition args_m5_g6 : args_t := {|
  region := "us-west-2";
  instance_families := ["m5"; "g6"; "g6.2xlarge"];
  output := "instance_types.json";
  max_workers := 5
|}.

Definition args_no_workers : args_t := {|
  region := "us-west-2";
  instance_families := ["g6"];
  output := "instance_types.json";
  max_workers := 0
|}.

(** The record of [g6.4xlarge] in [world_no_processor]. *)
Definition g6_4xlarge_record : instance_record := {|
  name := "g6.4xlarge";
  offerings := [
    spot_offering quarter true "us-west-2a";
    on_demand_offering one "us-west-2a";
    on_demand_offering one "us-west-2b"
  ];
  architecture := "amd64";
  operatingSystems := ["linux/unix"; "windows"];
  resources :=
    {| cpu := "0"; memory := "0.0Gi"; ephemeral_storage := "20Gi"; pods := "80" |}
|}.

(** An instance type without processor data whose memory size is beyond
    the floats. *)
Definition g6_48xlarge : instance_info := {|
  InstanceType := Some "g6.48xlarge";
  ProcessorInfo := None;
  SupportedPlatforms := None;
  HypervisorType := Some "nitro";
  VCpuInfo := Some {| DefaultVCpus := Some 192%Z |};
  MemoryInfo := Some {| SizeInMiB := Some (10 ^ 400)%Z |};
  NetworkInfo := None
|}.

Definition world_huge_memory : world :=
  make_world [g6_48xlarge] (CliOk spot) (CliOk (pricing one)).

(** A region with three instance types: the enrichment of [g6.xlarge]
    returns a record, that of [g6.2xlarge] raises [IndexError], and the
    hardware query of [g6.12xlarge] fails. *)
Definition world_three : world := {|
  describe_availability_zones := λ _, CliOk zones;
  describe_instance_types_filter := λ _ _,
    CliOk {| InstanceTypes :=
               Some [g6_xlarge; g6_2xlarge;
                     {| InstanceType := Some "g6.12xlarge"; ProcessorInfo := None;
                        SupportedPlatforms := None; HypervisorType := None;
                        VCpuInfo := None; MemoryInfo := None; NetworkInfo := None |}] |};
  describe_instance_types := λ _ instance_type,
    if bool_decide (instance_type = "g6.12xlarge")
    then CalledProcessError
    else CliOk {| InstanceTypes :=
                    Some (filter (λ info, InstanceType info = Some instance_type)
                            [g6_xlarge; g6_2xlarge]) |};
  describe_spot_price_history := λ _ _, CliOk spot;
  pricing_get_products := λ _ _, CliOk (pricing one);
  open_for_writing := can_open
|}.

(** A command line whose output path cannot be opened. *)
Definition args_missing_dir : args_t := {|
  region := "us-west-2";
  instance_families := ["g6"];
  output := "missing-dir/out.json";
  max_workers := 5
|}.

End Sample.

(** [f"{memory_mib / 1024}Gi"] *)
Definition memory_gib_text (memory_mib : Z) : outcome string :=
  quotient ← div_1024 memory_mib;
  mret (float_repr quotient +:+ "Gi").

Section Script.

Set Default Proof Using "Type".

Definition get_instance_types_for_family (w : world) (region instance_family : string)
  : outcome (list string) :=
  result ← run_aws_command (describe_instance_types_filter w region (instance_family +:+ ".*"));
  mapM (λ instance, item (InstanceType instance)) (default [] (InstanceTypes result)).

Definition get_instance_details (w : world) (region instance_type : string)
  : outcome (option instance_details) :=
  result ← run_aws_command (describe_instance_types w region instance_type);
  if negb (list_truthy (InstanceTypes result)) then mret None else
  instance_info ← first_item (default [] (InstanceTypes result));
  architecture ← first_item (supported_architectures instance_info ["x86_64"]);
  let architecture :=
    if bool_decide (architecture = "x86_64") then "amd64" else architecture in
  let operating_systems :=
    if list_truthy (SupportedPlatforms instance_info)
    then lower <$> default [] (SupportedPlatforms instance_info)
    else
      ["linux"] ++
      (if bool_decide (HypervisorType instance_info ≠ Some "nitro")
          || bool_decide ("windows" ∈ supported_architectures instance_info [])
       then ["windows"] else []) in
  let vcpu_count := str (default 0%Z (DefaultVCpus (default no_vcpu_info (VCpuInfo instance_info)))) in
  let memory_mib := default 0%Z (SizeInMiB (default no_memory_info (MemoryInfo instance_info))) in
  memory_gib ← memory_gib_text memory_mib;
  let max_pods :=
    str (default 8%Z (MaximumNetworkInterfaces (default no_network_info (NetworkInfo instance_info))) * 10) in
  let resources := {|
    cpu := vcpu_count;
    memory := memory_gib;
    ephemeral_storage := "20Gi";
    pods := max_pods
  |} in
  mret (Some {|
    det_architecture := architecture;
    det_operatingSystems := operating_systems;
    det_resources := resources
  |}).

(** The value kept for a zone by [get_spot_prices]; [price] is [None] only
    in the default that [process_instance_type] uses for a missing zone. *)
Record spot_info : Type := {
  price : option pyfloat;
  available : bool
}.

(** One turn of the loop over ["SpotPriceHistory"]. *)
Definition spot_price_step (prices_by_az : gmap (option string) spot_info) (pi : price_info)
  : outcome (gmap (option string) spot_info) :=
  let az := AvailabilityZone pi in
  price_ ← float_of (SpotPrice pi);
  if match prices_by_az !! az with
     | None => true
     | Some kept => SFltb price_ (default float_inf (price kept))
     end
  then mret (<[az := {| price := Some price_; available := true |}]> prices_by_az)
  else mret prices_by_az.

Fixpoint spot_price_loop (history : list price_info) (prices_by_az : gmap (option string) spot_info)
  : outcome (gmap (option string) spot_info) :=
  match history with
  | [] => mret prices_by_az
  | pi :: history' =>
      prices_by_az' ← spot_price_step prices_by_az pi;
      spot_price_loop history' prices_by_az'
  end.

Definition get_spot_prices (w : world) (region instance_type : string)
  : outcome (gmap (option string) spot_info) :=
  match describe_spot_price_history w region instance_type with
  | CliOk spot_data_ => spot_price_loop (default [] (SpotPriceHistory spot_data_)) ∅
  | CalledProcessError => mret ∅
  | JSONDecodeError => mret ∅
  end.

Definition region_mapping : gmap string string :=
  list_to_map [
    ("us-east-1", "US East (N. Virginia)");
    ("us-east-2", "US East (Ohio)");
    ("us-west-1", "US West (N. California)");
    ("us-west-2", "US West (Oregon)");
    ("eu-west-1", "EU (Ireland)");
    ("eu-central-1", "EU (Frankfurt)");
    ("ap-northeast-1", "Asia Pacific (Tokyo)");
    ("ap-southeast-1", "Asia Pacific (Singapore)");
    ("ap-southeast-2", "Asia Pacific (Sydney)");
    ("ap-south-1", "Asia Pacific (Mumbai)");
    ("eu-west-2", "EU (London)");
    ("eu-west-3", "EU (Paris)");
    ("eu-north-1", "EU (Stockholm)");
    ("sa-east-1", "South America (Sao Paulo)");
    ("ca-central-1", "Canada (Central)");
    ("ap-east-1", "Asia Pacific (Hong Kong)");
    ("me-south-1", "Middle East (Bahrain)");
    ("af-south-1", "Africa (Cape Town)");
    ("eu-south-1", "EU (Milan)")
  ].

(** The two inner loops over the terms and their price dimensions: the
    first price dimension met ends the function ([Some]); [None] when the
    loops run to their end. *)
Fixpoint first_price_dimension (terms_ : list (string * term_info)) : option (outcome pyfloat) :=
  match terms_ with
  | [] => None
  | (term_id, term_info_) :: terms' =>
      match default [] (priceDimensions term_info_) with
      | (price_id, price_info_) :: _ =>
          Some (float_of (USD (default no_price_per_unit (pricePerUnit price_info_))))
      | [] => first_price_dimension terms'
      end
  end.

(** The loop over ["PriceList"]; a product that [json.loads] rejects is
    skipped. *)
Fixpoint price_list_loop (products : list product_text) : outcome (option pyfloat) :=
  match products with
  | [] => mret None
  | BadJSON :: products' => price_list_loop products'
  | Product product_data_ :: products' =>
      let terms_ := default [] (OnDemand (default no_terms (terms product_data_))) in
      match first_price_dimension terms_ with
      | Some found => price_ ← found; mret (Some price_)
      | None => price_list_loop products'
      end
  end.

Definition get_on_demand_price (w : world) (region instance_type : string)
  : outcome (option pyfloat) :=
  let region_name := default region (region_mapping !! region) in
  match pricing_get_products w instance_type region_name with
  | CliOk pricing_data_ => price_list_loop (default [] (PriceList pricing_data_))
  | CalledProcessError => mret None
  | JSONDecodeError => mret None
  end.

Definition get_availability_zones (w : world) (region : string) : outcome (list string) :=
  result ← run_aws_command (describe_availability_zones w region);
  mapM (λ az, item (ZoneName az)) (default [] (AvailabilityZones result)).

(** The first loop over [all_azs]. *)
Fixpoint spot_offerings (spot_prices : gmap (option string) spot_info) (all_azs : list string)
  : list offering :=
  match all_azs with
  | [] => []
  | az :: all_azs' =>
      let spot_info_ :=
        default {| price := None; available := false |} (spot_prices !! Some az) in
      match price spot_info_ with
      | Some price_ =>
          if float_truthy price_
          then spot_offering price_ (available spot_info_) az :: spot_offerings spot_prices all_azs'
          else spot_offerings spot_prices all_azs'
      | None => spot_offerings spot_prices all_azs'
      end
  end.

(** The second loop over [all_azs], under [if on_demand_price:]. *)
Definition on_demand_offerings (on_demand_price : option pyfloat) (all_azs : list string)
  : list offering :=
  match on_demand_price with
  | Some price_ =>
      if float_truthy price_ then on_demand_offering price_ <$> all_azs else []
  | None => []
  end.

Definition process_instance_type (w : world) (region instance_type : string) (all_azs : list string)
  : outcome (option instance_record) :=
  instance_details_ ← get_instance_details w region instance_type;
  match instance_details_ with
  | None => mret None
  | Some instance_details_ =>
      spot_prices ← get_spot_prices w region instance_type;
      on_demand_price ← get_on_demand_price w region instance_type;
      let offerings_ :=
        spot_offerings spot_prices all_azs ++ on_demand_offerings on_demand_price all_azs in
      mret (Some {|
        name := instance_type;
        offerings := offerings_;
        architecture := det_architecture instance_details_;
        operatingSystems := det_operatingSystems instance_details_;
        resources := det_resources instance_details_
      |})
  end.

(** *** [main] *)

(** The loop over the requested families. *)
Fixpoint resolve_families (w : world) (region_ : string) (families : list string)
    (all_instance_types : list string) : outcome (list string) :=
  match families with
  | [] => mret all_instance_types
  | family :: families' =>
      let family := sub_size_suffix family in
      instance_types ← get_instance_types_for_family w region_ family;
      resolve_families w region_ families' (all_instance_types ++ instance_types)
  end.

(** The loop over [as_completed]: each element is what [future.result()]
    does for one future, in the order the futures complete. *)
Fixpoint collect_results (futures : list (outcome (option instance_record)))
    (results : list instance_record) : outcome (list instance_record) :=
  match futures with
  | [] => mret results
  | future :: futures' =>
      match future with
      | Ret (Some result) => collect_results futures' (results ++ [result])
      | Ret None => collect_results futures' results
      | Raise e => collect_results futures' results
      | SysExit code => SysExit code
      end
  end.

(** [as_completed] yields the submitted futures, each once, in the order
    they complete; [as_completed] below gives that order for the instance
    types submitted. *)
Variable as_completed : list string → list string.

(** The body of [main] up to [json.dumps]. *)
Definition main_results (w : world) (args : args_t) : outcome (list instance_record) :=
  all_azs ← get_availability_zones w (region args);
  all_instance_types ← resolve_families w (region args) (instance_families args) [];
  if bool_decide (all_instance_types = []) then SysExit 1 else
  if (max_workers args <=? 0)%Z then Raise ValueError else
  collect_results
    ((λ instance_type, process_instance_type w (region args) instance_type all_azs)
       <$> as_completed all_instance_types)
    [].

(** [with open(output_file, "w") as f: f.write(formatted_output)]: the
    file written, or the [OSError] of [open]. *)
Definition write_output (w : world) (output_file : string) (results : list instance_record)
  : outcome (string * list instance_record) :=
  if open_for_writing w output_file then mret (output_file, results) else Raise OSError.

(** [main] from the arguments parsed on.  The process ends with status 0
    when [main] returns, with status 1 on an exception that nothing
    catches, and with the status of [sys.exit]. *)
Definition main (w : world) (args : args_t) : final :=
  match results ← main_results w args; write_output w (output args) results with
  | Ret file => {| exit_status := 0; written := Some file |}
  | Raise e => {| exit_status := 1; written := None |}
  | SysExit code => {| exit_status := code; written := None |}
  end.

(** The script as a whole: [parser.parse_args()], then the rest of
    [main]. *)
Definition script (w : world) (command_line : parse_args_outcome) : final :=
  match command_line with
  | Parsed args => main w args
  | HelpExit => {| exit_status := 0; written := None |}
  | UsageExit => {| exit_status := 2; written := None |}
  end.

(** *** Reading a record *)

(** A spot Offering for zone [az]: its requirements hold capacity type
    spot and zone [az]. *)
Definition is_spot_offering_for (az : string) (o : offering) : Prop :=
  capacity_type_requirement "spot" ∈ Requirements o ∧ zone_requirement az ∈ Requirements o.

Definition is_on_demand_offering (o : offering) : Prop :=
  capacity_type_requirement "on-demand" ∈ Requirements o.

Global Instance is_spot_offering_for_dec az o : Decision (is_spot_offering_for az o).
Proof. unfold is_spot_offering_for. apply _. Defined.

Global Instance is_on_demand_offering_dec o : Decision (is_on_demand_offering o).
Proof. unfold is_on_demand_offering. apply _. Defined.

(** The price entries that the spot-price query returned (none when the
    query failed). *)
Definition spot_price_history (w : world) (region_ instance_type : string) : list price_info :=
  match describe_spot_price_history w region_ instance_type with
  | CliOk spot_data_ => default [] (SpotPriceHistory spot_data_)
  | CalledProcessError => []
  | JSONDecodeError => []
  end.

(** The prices of the entries of zone [az], in the order of the answer. *)
Definition observed_prices (az : option string) (history : list price_info) : list pyfloat :=
  flat_map
    (λ pi, if bool_decide (AvailabilityZone pi = az)
           then match float_of (SpotPrice pi) with Ret f => [f] | _ => [] end
           else [])
    history.

(** What the loop of [get_spot_prices] does to the price kept for one
    zone. *)
Definition keep_lowest (kept : option pyfloat) (price_ : pyfloat) : option pyfloat :=
  match kept with
  | None => Some price_
  | Some k => if SFltb price_ k then Some price_ else Some k
  end.

Definition lowest (kept : option pyfloat) (prices : list pyfloat) : option pyfloat :=
  foldl keep_lowest kept prices.

Definition stored (price_ : pyfloat) : spot_info :=
  {| price := Some price_; available := true |}.

(** How many times zone [az] is listed. *)
Definition occurrences (az : string) (all_azs : list string) : nat :=
  length (filter (λ z, z = az) all_azs).

(** The record that [future.result()] hands to the loop of [main], if
    any. *)
Definition record_of (future : outcome (option instance_record)) : option instance_record :=
  match future with
  | Ret result => result
  | Raise e => None
  | SysExit code => None
  end.

(** Whether an element of ["PriceList"] decodes to a product with a price
    dimension under one of its on-demand terms. *)
Definition has_price_dimension (product : product_text) : bool :=
  match product with
  | BadJSON => false
  | Product product_data_ =>
      match first_price_dimension
              (default [] (OnDemand (default no_terms (terms product_data_)))) with
      | Some _ => true
      | None => false
      end
  end.

(** ** Properties *)

Lemma bind_Ret_inv {A B} (m : outcome A) (k : A → outcome B) (b : B) :
  m ≫= k = Ret b → ∃ a, m = Ret a ∧ k a = Ret b.
Proof. destruct m as [a| |]; simpl; [eauto | discriminate | discriminate]. Qed.

Lemma first_item_Ret_inv {A} (l : list A) (x : A) :
  first_item l = Ret x → ∃ l', l = x :: l'.
Proof. destruct l as [|y l']; simpl; [discriminate|]. intros [= ->]. eauto. Qed.

Lemma list_truthy_true_inv {A} (l : option (list A)) :
  list_truthy l = true → ∃ x l', l = Some (x :: l').
Proof. destruct l as [[|x l']|]; simpl; try discriminate. eauto. Qed.

(** What [get_instance_details] has read when it returns details. *)
Lemma get_instance_details_inv w region_ instance_type d :
  get_instance_details w region_ instance_type = Ret (Some d) →
  ∃ result info rest a archs,
    describe_instance_types w region_ instance_type = CliOk result ∧
    InstanceTypes result = Some (info :: rest) ∧
    supported_architectures info ["x86_64"] = a :: archs ∧
    det_architecture d = (if bool_decide (a = "x86_64") then "amd64" else a) ∧
    det_operatingSystems d =
      (if list_truthy (SupportedPlatforms info)
       then lower <$> default [] (SupportedPlatforms info)
       else ["linux"] ++
            (if bool_decide (HypervisorType info ≠ Some "nitro")
                || bool_decide ("windows" ∈ supported_architectures info [])
             then ["windows"] else [])) ∧
    pods (det_resources d) =
      str (default 8%Z (MaximumNetworkInterfaces (default no_network_info (NetworkInfo info))) * 10).
Proof.
  unfold get_instance_details. intros H.
  apply bind_Ret_inv in H as (result & Hrun & H).
  destruct (describe_instance_types w region_ instance_type) as [json| |] eqn:Hcli;
    simpl in Hrun; try discriminate.
  injection Hrun as ->.
  destruct (list_truthy (InstanceTypes result)) eqn:Htruthy; simpl in H; [|discriminate].
  apply list_truthy_true_inv in Htruthy as (info & rest & Hits).
  rewrite Hits in H. simpl in H.
  apply bind_Ret_inv in H as (a & Harch & H).
  apply first_item_Ret_inv in Harch as [archs Harch].
  apply bind_Ret_inv in H as (memory_gib & Hmem & H).
  injection H as <-. simpl.
  exists result, info, rest, a, archs. done.
Qed.

(** The details are returned as soon as the answer holds an entry whose
    list of architectures, or its default, is not empty and whose memory
    size, divided by 1024, is within the floats. *)
Lemma get_instance_details_Ret w region_ instance_type result info rest a archs memory_gib :
  describe_instance_types w region_ instance_type = CliOk result →
  InstanceTypes result = Some (info :: rest) →
  supported_architectures info ["x86_64"] = a :: archs →
  memory_gib_text (default 0%Z (SizeInMiB (default no_memory_info (MemoryInfo info))))
    = Ret memory_gib →
  ∃ d, get_instance_details w region_ instance_type = Ret (Some d).
Proof.
  intros Hcli Hits Ha Hmem. unfold get_instance_details.
  rewrite Hcli. simpl. rewrite Hits. simpl. rewrite Ha. simpl. rewrite Hmem. simpl. eauto.
Qed.

(** A record comes from the details, the spot prices and the on-demand
    price of its instance type. *)
Lemma process_instance_type_inv w region_ instance_type all_azs r :
  process_instance_type w region_ instance_type all_azs = Ret (Some r) →
  ∃ d spot_prices on_demand_price,
    get_instance_details w region_ instance_type = Ret (Some d) ∧
    get_spot_prices w region_ instance_type = Ret spot_prices ∧
    get_on_demand_price w region_ instance_type = Ret on_demand_price ∧
    r = {| name := instance_type;
           offerings := spot_offerings spot_prices all_azs
                        ++ on_demand_offerings on_demand_price all_azs;
           architecture := det_architecture d;
           operatingSystems := det_operatingSystems d;
           resources := det_resources d |}.
Proof.
  unfold process_instance_type. intros H.
  apply bind_Ret_inv in H as ([d|] & Hd & H); [|discriminate].
  apply bind_Ret_inv in H as (sp & Hsp & H).
  apply bind_Ret_inv in H as (od & Hod & H).
  injection H as <-. eauto 10.
Qed.

Lemma process_instance_type_Ret w region_ instance_type all_azs d spot_prices on_demand_price :
  get_instance_details w region_ instance_type = Ret (Some d) →
  get_spot_prices w region_ instance_type = Ret spot_prices →
  get_on_demand_price w region_ instance_type = Ret on_demand_price →
  process_instance_type w region_ instance_type all_azs =
    Ret (Some {| name := instance_type;
                 offerings := spot_offerings spot_prices all_azs
                              ++ on_demand_offerings on_demand_price all_azs;
                 architecture := det_architecture d;
                 operatingSystems := det_operatingSystems d;
                 resources := det_resources d |}).
Proof. intros Hd Hsp Hod. unfold process_instance_type. by rewrite Hd, Hsp, Hod. Qed.

(** What the record of an instance type holds when the first entry of the
    hardware answer is [info]. *)
Lemma record_of_info w region_ instance_type all_azs r result info rest :
  describe_instance_types w region_ instance_type = CliOk result →
  InstanceTypes result = Some (info :: rest) →
  process_instance_type w region_ instance_type all_azs = Ret (Some r) →
  ∃ a archs,
    supported_architectures info ["x86_64"] = a :: archs ∧
    architecture r = (if bool_decide (a = "x86_64") then "amd64" else a) ∧
    operatingSystems r =
      (if list_truthy (SupportedPlatforms info)
       then lower <$> default [] (SupportedPlatforms info)
       else ["linux"] ++
            (if bool_decide (HypervisorType info ≠ Some "nitro")
                || bool_decide ("windows" ∈ supported_architectures info [])
             then ["windows"] else [])) ∧
    pods (resources r) =
      str (default 8%Z (MaximumNetworkInterfaces (default no_network_info (NetworkInfo info))) * 10).
Proof.
  intros Hcli Hits Hr.
  apply process_instance_type_inv in Hr as (d & sp & od & Hd & _ & _ & ->).
  apply get_instance_details_inv in Hd
    as (result' & info' & rest' & a & archs & Hcli' & Hits' & Ha & Harch & Hos & Hpods).
  rewrite Hcli in Hcli'. injection Hcli' as <-.
  rewrite Hits in Hits'. injection Hits' as <- <-.
  exists a, archs. simpl. done.
Qed.

(** *** The hardware fields of a record *)

(** C5. When the first supported architecture the provider reports for an
    instance type is exactly ["x86_64"], the [architecture] field of its
    record is ["amd64"]; any other first architecture token is the
    [architecture] field, unchanged. *)
Theorem architecture_of_record w region_ instance_type all_azs r result info rest pinfo a archs :
  describe_instance_types w region_ instance_type = CliOk result →
  InstanceTypes result = Some (info :: rest) →
  ProcessorInfo info = Some pinfo →
  SupportedArchitectures pinfo = Some (a :: archs) →
  process_instance_type w region_ instance_type all_azs = Ret (Some r) →
  (a = "x86_64" → architecture r = "amd64") ∧
  (a ≠ "x86_64" → architecture r = a).
Proof.
  intros Hcli Hits Hpi Hsa Hr.
  destruct (record_of_info _ _ _ _ _ _ _ _ Hcli Hits Hr) as (a' & archs' & Ha & Harch & _).
  unfold supported_architectures in Ha. rewrite Hpi in Ha. simpl in Ha.
  rewrite Hsa in Ha. simpl in Ha. injection Ha as <- <-.
  rewrite Harch. split; intros Hx.
  - by rewrite bool_decide_true.
  - by rewrite bool_decide_false.
Qed.

(** C4, amended. When the provider reports no supported-platforms list, or
    an empty one, [operatingSystems] is [["linux"]], with ["windows"]
    appended exactly when the hypervisor type is not ["nitro"] or the
    supported-architectures list holds the token ["windows"]; when it
    reports a platforms list that is not empty, [operatingSystems] is that
    list with each element lower-cased. *)
Theorem operating_systems_of_record w region_ instance_type all_azs r result info rest :
  describe_instance_types w region_ instance_type = CliOk result →
  InstanceTypes result = Some (info :: rest) →
  process_instance_type w region_ instance_type all_azs = Ret (Some r) →
  (SupportedPlatforms info = None ∨ SupportedPlatforms info = Some [] →
     (HypervisorType info ≠ Some "nitro" ∨ "windows" ∈ supported_architectures info [] →
        operatingSystems r = ["linux"; "windows"]) ∧
     (¬ (HypervisorType info ≠ Some "nitro" ∨ "windows" ∈ supported_architectures info []) →
        operatingSystems r = ["linux"])) ∧
  (∀ p ps, SupportedPlatforms info = Some (p :: ps) →
     operatingSystems r = lower <$> (p :: ps)).
Proof.
  intros Hcli Hits Hr.
  destruct (record_of_info _ _ _ _ _ _ _ _ Hcli Hits Hr) as (a & archs & _ & _ & Hos & _).
  rewrite Hos. split.
  - intros Hnone.
    assert (list_truthy (SupportedPlatforms info) = false) as ->
      by (destruct Hnone as [-> | ->]; done).
    split; intros Hcond.
    + assert (bool_decide (HypervisorType info ≠ Some "nitro")
              || bool_decide ("windows" ∈ supported_architectures info []) = true) as ->; [|done].
      apply orb_true_iff. destruct Hcond; [left | right]; by apply bool_decide_eq_true.
    + assert (bool_decide (HypervisorType info ≠ Some "nitro")
              || bool_decide ("windows" ∈ supported_architectures info []) = false) as ->; [|done].
      apply orb_false_iff.
      split; apply bool_decide_eq_false; intros ?; apply Hcond; [by left | by right].
  - intros p ps ->. done.
Qed.

(** C6. The [pods] resource of a record is [str] of ten times the maximum
    number of network interfaces, where the number is 8 when the provider
    reports none: 4 interfaces give ["40"], none gives ["80"]. *)
Theorem pods_of_record w region_ instance_type all_azs r result info rest :
  describe_instance_types w region_ instance_type = CliOk result →
  InstanceTypes result = Some (info :: rest) →
  process_instance_type w region_ instance_type all_azs = Ret (Some r) →
  (∀ ninfo n, NetworkInfo info = Some ninfo → MaximumNetworkInterfaces ninfo = Some n →
     pods (resources r) = str (n * 10)) ∧
  (∀ ninfo, NetworkInfo info = Some ninfo → MaximumNetworkInterfaces ninfo = Some 4%Z →
     pods (resources r) = "40") ∧
  (NetworkInfo info = None
   ∨ (∃ ninfo, NetworkInfo info = Some ninfo ∧ MaximumNetworkInterfaces ninfo = None) →
     pods (resources r) = "80").
Proof.
  intros Hcli Hits Hr.
  destruct (record_of_info _ _ _ _ _ _ _ _ Hcli Hits Hr) as (a & archs & _ & _ & _ & Hpods).
  rewrite Hpods. split; [|split].
  - intros ninfo n Hn Hmax. rewrite Hn. simpl. by rewrite Hmax.
  - intros ninfo Hn Hmax. rewrite Hn. simpl. by rewrite Hmax.
  - intros [Hn | (ninfo & Hn & Hmax)]; rewrite Hn; simpl; [done|]. by rewrite Hmax.
Qed.

(** *** Family tokens *)

Lemma match_to_end_no_newline s : has_newline s = false → match_to_end s = Some EmptyString.
Proof.
  induction s as [|c s IH]; simpl; [done|].
  intros [Hc Hs]%orb_false_iff. rewrite Hc. auto.
Qed.

Lemma match_to_end_app_None s t : match_to_end s = None → match_to_end (s +:+ t) = None.
Proof.
  induction s as [|c s IH]; simpl; [done|].
  destruct (bool_decide (c = newline)); [|done].
  destruct s as [|c' s]; simpl; [done|]. done.
Qed.

Lemma match_to_end_length s r : match_to_end s = Some r → (String.length r ≤ String.length s)%nat.
Proof.
  revert r. induction s as [|c s IH]; simpl; intros r.
  - by intros [= <-].
  - destruct (bool_decide (c = newline)).
    + destruct (bool_decide (s = EmptyString)); [|done]. by intros [= <-].
    + intros Hr. apply IH in Hr. lia.
Qed.

Lemma match_size_suffix_length s r :
  match_size_suffix s = Some r → (String.length r < String.length s)%nat.
Proof.
  destruct s as [|c [|d s]]; simpl; try done.
  destruct (bool_decide (c = dot) && is_digit d); [|done].
  intros Hr%match_to_end_length. lia.
Qed.

(** A token that the substitution leaves as it is holds no match. *)
Lemma sub_size_suffix_fixed_cons c s :
  sub_size_suffix (String c s) = String c s →
  match_size_suffix (String c s) = None ∧ sub_size_suffix s = s.
Proof.
  intros H. change (sub_size_suffix (String c s)) with
    (match match_size_suffix (String c s) with
     | Some rest => rest
     | None => String c (sub_size_suffix s)
     end) in H.
  destruct (match_size_suffix (String c s)) as [r|] eqn:Hm.
  - apply match_size_suffix_length in Hm. subst r. lia.
  - by injection H.
Qed.

Lemma match_size_suffix_app_None s d rest :
  match_size_suffix s = None → s ≠ EmptyString →
  match_size_suffix (s +:+ String dot (String d rest)) = None.
Proof.
  destruct s as [|c [|c' s]]; [done| |]; intros Hm _.
  - simpl. assert (is_digit dot = false) as -> by done. by rewrite andb_false_r.
  - revert Hm. simpl. destruct (bool_decide (c = dot) && is_digit c'); [|done].
    apply match_to_end_app_None.
Qed.

Lemma sub_size_suffix_app fam d rest :
  sub_size_suffix fam = fam →
  is_digit d = true →
  has_newline rest = false →
  sub_size_suffix (fam +:+ String dot (String d rest)) = fam.
Proof.
  intros Hfam Hd Hrest. induction fam as [|c fam IH].
  - simpl. rewrite Hd. simpl. by rewrite match_to_end_no_newline.
  - apply sub_size_suffix_fixed_cons in Hfam as [Hm Hfam].
    change (String c fam +:+ String dot (String d rest))
      with (String c (fam +:+ String dot (String d rest))).
    change (sub_size_suffix (String c (fam +:+ String dot (String d rest)))) with
      (match match_size_suffix (String c fam +:+ String dot (String d rest)) with
       | Some r => r
       | None => String c (sub_size_suffix (fam +:+ String dot (String d rest)))
       end).
    rewrite match_size_suffix_app_None by done.
    by rewrite IH.
Qed.

Lemma match_size_suffix_no_dot_digit c s :
  has_dot_digit (String c s) = false → match_size_suffix (String c s) = None.
Proof.
  destruct s as [|d s]; simpl; [done|].
  intros [-> _]%orb_false_iff. done.
Qed.

(** A token in which no dot is followed by a digit holds no match. *)
Lemma sub_size_suffix_bare s : has_dot_digit s = false → sub_size_suffix s = s.
Proof.
  induction s as [|c s IH]; [done|]. intros Hs.
  change (sub_size_suffix (String c s)) with
    (match match_size_suffix (String c s) with
     | Some rest => rest
     | None => String c (sub_size_suffix s)
     end).
  rewrite match_size_suffix_no_dot_digit by done.
  f_equal. apply IH. destruct s as [|d s]; [done|].
  simpl in Hs. by apply orb_false_iff in Hs as [_ Hs].
Qed.

(** C7. A family token made of a bare family token (one in which no dot
    is followed by a digit) and a size suffix that matches the pattern up
    to the end of the token (a dot, a digit, then characters other than a
    newline) is replaced by the bare token before the query, the bare token
    itself goes to the query as it is, and the resolver gives for the
    suffixed token what it gives for the bare one. *)
Theorem size_suffix_resolves_as_bare_family (fam rest : string) (d : ascii) :
  has_dot_digit fam = false →
  is_digit d = true →
  has_newline rest = false →
  sub_size_suffix (fam +:+ String dot (String d rest)) = fam ∧
  sub_size_suffix fam = fam ∧
  (∀ w region_,
     get_instance_types_for_family w region_
       (sub_size_suffix (fam +:+ String dot (String d rest)))
     = get_instance_types_for_family w region_ (sub_size_suffix fam)) ∧
  (∀ w region_ families acc,
     resolve_families w region_ ((fam +:+ String dot (String d rest)) :: families) acc
     = resolve_families w region_ (fam :: families) acc).
Proof.
  intros Hbare Hd Hrest.
  pose proof (sub_size_suffix_bare fam Hbare) as Hfam.
  pose proof (sub_size_suffix_app fam d rest Hfam Hd Hrest) as Hsub.
  split; [done|]. split; [done|]. split.
  - intros w region_. by rewrite Hsub, Hfam.
  - intros w region_ families acc. simpl. by rewrite Hsub, Hfam.
Qed.

(** *** The end of the run *)

Lemma mapM_item_not_exit {A} (f : A → option string) (l : list A) code :
  mapM (λ x, item (f x)) l ≠ SysExit code.
Proof.
  induction l as [|x l IH]; simpl; [done|].
  destruct (f x) as [y|]; simpl; [|done].
  destruct (mapM (λ x, item (f x)) l); done.
Qed.

Lemma get_availability_zones_exit w region_ code :
  get_availability_zones w region_ = SysExit code → code = 1%Z.
Proof.
  unfold get_availability_zones.
  destruct (describe_availability_zones w region_) as [json| |]; simpl.
  - intros H. by apply mapM_item_not_exit in H.
  - by intros [= <-].
  - by intros [= <-].
Qed.

Lemma resolve_families_all_empty w region_ families acc :
  (∀ family, family ∈ families →
     get_instance_types_for_family w region_ (sub_size_suffix family) = Ret []) →
  resolve_families w region_ families acc = Ret acc.
Proof.
  revert acc. induction families as [|family families IH]; intros acc Hall; simpl; [done|].
  rewrite Hall by left. simpl. rewrite app_nil_r.
  apply IH. intros f Hf. apply Hall. by right.
Qed.

(** C8. When every requested family resolves to no instance type, the
    process ends with a status other than 0 and writes no output file. *)
Theorem no_instance_types_exits_nonzero w args :
  (∀ family, family ∈ instance_families args →
     get_instance_types_for_family w (region args) (sub_size_suffix family) = Ret []) →
  exit_status (main w args) ≠ 0%Z ∧ written (main w args) = None.
Proof.
  intros Hall. unfold main, main_results.
  destruct (get_availability_zones w (region args)) as [all_azs|e|code] eqn:Hz; simpl.
  - rewrite (resolve_families_all_empty _ _ _ _ Hall). simpl. done.
  - done.
  - apply get_availability_zones_exit in Hz as ->. done.
Qed.

(** *** Floats *)

Lemma SFltb_irrefl a : SFltb a a = false.
Proof.
  unfold SFltb. destruct a as [s|s| |s m e]; simpl; try done.
  - by destruct s.
  - destruct s; rewrite Z.compare_refl, Pos.compare_cont_refl; done.
Qed.

Lemma SFltb_finite s1 m1 e1 s2 m2 e2 :
  SFltb (S754_finite s1 m1 e1) (S754_finite s2 m2 e2) = true ↔
  match s1, s2 with
  | true, false => True
  | false, true => False
  | false, false => (e1 < e2)%Z ∨ (e1 = e2 ∧ (m1 < m2)%positive)
  | true, true => (e2 < e1)%Z ∨ (e1 = e2 ∧ (m2 < m1)%positive)
  end.
Proof.
  unfold SFltb. simpl.
  change (Pos.compare_cont Eq m1 m2) with (m1 ?= m2)%positive.
  destruct s1, s2; [| by split | split; [discriminate | intros []] |];
    destruct (Z.compare_spec e1 e2) as [->|?|?];
    try destruct (Pos.compare_spec m1 m2); simpl;
    (split; [intros ?; try discriminate; lia | intros ?; try reflexivity; lia]).
Qed.

Lemma SFltb_trans a b c : SFltb a b = true → SFltb b c = true → SFltb a c = true.
Proof.
  destruct a as [sa|sa| |sa ma ea], b as [sb|sb| |sb mb eb], c as [sc|sc| |sc mc ec];
    try (by destruct sa, sb, sc); try (by destruct sa, sb); try (by destruct sb, sc);
    try (by destruct sa, sc); try done.
  rewrite !SFltb_finite. destruct sa, sb, sc; try done; lia.
Qed.

(** *** The lowest price of a zone *)

Lemma lowest_Some k prices :
  ∃ p, lowest (Some k) prices = Some p ∧
       (p = k ∨ (p ∈ prices ∧ SFltb p k = true)) ∧
       ∀ q, q ∈ k :: prices → SFltb q p = false.
Proof.
  revert k. induction prices as [|q0 prices IH]; intros k.
  - exists k. split; [done|]. split; [by left|].
    intros q ->%list_elem_of_singleton. apply SFltb_irrefl.
  - unfold lowest. simpl. destruct (SFltb q0 k) eqn:Hlt.
    + destruct (IH q0) as (p & Hp & Hfrom & Hmin). exists p.
      split; [done|].
      assert (SFltb p k = true) as Hpk.
      { destruct Hfrom as [-> | [_ Hpq]]; [done|]. by eapply SFltb_trans. }
      split.
      * right. split; [|done]. destruct Hfrom as [-> | [Hin _]]; [left | by right].
      * intros q [-> | Hq]%elem_of_cons; [|by apply Hmin].
        destruct (SFltb k p) eqn:Hkp; [|done].
        rewrite <- (Hmin q0) by left. symmetry. by eapply SFltb_trans.
    + destruct (IH k) as (p & Hp & Hfrom & Hmin). exists p.
      split; [done|]. split.
      * destruct Hfrom as [-> | [Hin Hpk]]; [by left|]. right. split; [by right|done].
      * intros q [-> | [-> | Hq]%elem_of_cons]%elem_of_cons.
        -- apply Hmin. by left.
        -- destruct Hfrom as [-> | [_ Hpk]]; [done|].
           destruct (SFltb q0 p) eqn:Hqp; [|done].
           rewrite <- Hlt. symmetry. by eapply SFltb_trans.
        -- apply Hmin. by right.
Qed.

(** The price kept for a zone that has entries is one of their prices,
    and none of their prices is below it. *)
Lemma lowest_None prices :
  prices ≠ [] →
  ∃ p, lowest None prices = Some p ∧ p ∈ prices ∧ ∀ q, q ∈ prices → SFltb q p = false.
Proof.
  destruct prices as [|q0 prices]; [done|]. intros _.
  destruct (lowest_Some q0 prices) as (p & Hp & Hfrom & Hmin).
  exists p. split; [done|]. split; [|done].
  destruct Hfrom as [-> | [Hin _]]; [by left | by right].
Qed.

Lemma lowest_app kept l1 l2 : lowest kept (l1 ++ l2) = lowest (lowest kept l1) l2.
Proof. apply foldl_app. Qed.

(** The loop keeps, for each zone, the lowest of its prices. *)
Lemma spot_price_loop_spec (history : list price_info) (mp : gmap (option string) pyfloat)
    (m' : gmap (option string) spot_info) :
  spot_price_loop history (stored <$> mp) = Ret m' →
  ∃ mp' : gmap (option string) pyfloat,
    m' = stored <$> mp' ∧
    ∀ az, mp' !! az = lowest (mp !! az) (observed_prices az history).
Proof.
  revert mp. induction history as [|pi history IH]; intros mp; simpl.
  - intros [= <-]. exists mp. done.
  - intros H. apply bind_Ret_inv in H as (m1 & Hstep & H).
    unfold spot_price_step in Hstep.
    apply bind_Ret_inv in Hstep as (f & Hf & Hstep).
    rewrite lookup_fmap in Hstep.
    assert (∃ mp1 : gmap (option string) pyfloat,
      m1 = stored <$> mp1 ∧
      ∀ az, mp1 !! az =
            if bool_decide (AvailabilityZone pi = az)
            then keep_lowest (mp !! az) f else mp !! az) as (mp1 & -> & Hmp1).
    { destruct (mp !! AvailabilityZone pi) as [k|] eqn:Hk; simpl in Hstep.
      - destruct (SFltb f k) eqn:Hlt; injection Hstep as <-.
        + exists (<[AvailabilityZone pi := f]> mp). split; [by rewrite fmap_insert|].
          intros az. case_bool_decide as Haz.
          * subst az. rewrite lookup_insert_eq, Hk. simpl. by rewrite Hlt.
          * by rewrite lookup_insert_ne.
        + exists mp. split; [done|].
          intros az. case_bool_decide as Haz; [|done].
          subst az. rewrite Hk. simpl. by rewrite Hlt.
      - injection Hstep as <-.
        exists (<[AvailabilityZone pi := f]> mp). split; [by rewrite fmap_insert|].
        intros az. case_bool_decide as Haz.
        + subst az. by rewrite lookup_insert_eq, Hk.
        + by rewrite lookup_insert_ne. }
    apply IH in H as (mp' & -> & Hmp'). exists mp'. split; [done|].
    intros az. rewrite Hmp', Hmp1.
    change (observed_prices az (pi :: history)) with
      ((if bool_decide (AvailabilityZone pi = az)
        then match float_of (SpotPrice pi) with Ret f => [f] | _ => [] end
        else []) ++ observed_prices az history).
    rewrite lowest_app. case_bool_decide; [|done]. by rewrite Hf.
Qed.

(** What [get_spot_prices] returns, zone by zone. *)
Lemma get_spot_prices_spec (w : world) (region_ instance_type : string)
    (spot_prices : gmap (option string) spot_info) :
  get_spot_prices w region_ instance_type = Ret spot_prices →
  ∀ az : option string, spot_prices !! az =
        stored <$> lowest None (observed_prices az (spot_price_history w region_ instance_type)).
Proof.
  unfold get_spot_prices, spot_price_history.
  destruct (describe_spot_price_history w region_ instance_type) as [d| |].
  - intros H az. rewrite <- (fmap_empty stored) in H.
    apply spot_price_loop_spec in H as (mp' & -> & Hmp').
    by rewrite lookup_fmap, Hmp', lookup_empty.
  - by intros [= <-] az.
  - by intros [= <-] az.
Qed.

(** *** The offerings of a record *)

Lemma spot_offering_for az p a z : is_spot_offering_for az (spot_offering p a z) ↔ z = az.
Proof.
  unfold is_spot_offering_for, spot_offering, capacity_type_requirement, zone_requirement.
  simpl. rewrite !elem_of_cons, !elem_of_nil. split.
  - intros [_ [H | [H | []]]]; [discriminate H | by injection H].
  - intros ->. split; [by left | right; by left].
Qed.

Lemma on_demand_not_spot az p z : ¬ is_spot_offering_for az (on_demand_offering p z).
Proof.
  unfold is_spot_offering_for, on_demand_offering, capacity_type_requirement, zone_requirement.
  simpl. rewrite !elem_of_cons, !elem_of_nil.
  intros [[H | [H | []]] _]; discriminate H.
Qed.

Lemma spot_not_on_demand p a z : ¬ is_on_demand_offering (spot_offering p a z).
Proof.
  unfold is_on_demand_offering, spot_offering, capacity_type_requirement, zone_requirement.
  simpl. rewrite !elem_of_cons, !elem_of_nil.
  intros [H | [H | []]]; discriminate H.
Qed.

Lemma on_demand_is_on_demand p z : is_on_demand_offering (on_demand_offering p z).
Proof. unfold is_on_demand_offering, on_demand_offering. simpl. by left. Qed.

Lemma filter_spot_of_on_demand az on_demand_price all_azs :
  filter (is_spot_offering_for az) (on_demand_offerings on_demand_price all_azs) = [].
Proof.
  unfold on_demand_offerings. destruct on_demand_price as [p|]; [|done].
  destruct (float_truthy p); [|done].
  induction all_azs as [|z all_azs IH]; [done|].
  rewrite fmap_cons, filter_cons_False by apply on_demand_not_spot. done.
Qed.

Lemma filter_on_demand_of_spot (spot_prices : gmap (option string) spot_info) all_azs :
  filter is_on_demand_offering (spot_offerings spot_prices all_azs) = [].
Proof.
  induction all_azs as [|z all_azs IH]; [done|]. simpl.
  destruct (price _) as [p|]; [|done].
  destruct (float_truthy p); [|done].
  by rewrite filter_cons_False by apply spot_not_on_demand.
Qed.

Lemma filter_on_demand_of_on_demand on_demand_price all_azs :
  filter is_on_demand_offering (on_demand_offerings on_demand_price all_azs)
  = on_demand_offerings on_demand_price all_azs.
Proof.
  unfold on_demand_offerings. destruct on_demand_price as [p|]; [|done].
  destruct (float_truthy p); [|done].
  induction all_azs as [|z all_azs IH]; [done|].
  rewrite fmap_cons, filter_cons_True by apply on_demand_is_on_demand. by rewrite IH.
Qed.

(** The spot Offerings for one zone: one per occurrence of the zone in the
    zone list when the price kept for it is truthy, none otherwise. *)
Lemma filter_spot_of_spot (spot_prices : gmap (option string) spot_info) az all_azs :
  filter (is_spot_offering_for az) (spot_offerings spot_prices all_azs) =
  match spot_prices !! Some az with
  | Some info =>
      match price info with
      | Some p =>
          if float_truthy p
          then replicate (occurrences az all_azs) (spot_offering p (available info) az)
          else []
      | None => []
      end
  | None => []
  end.
Proof.
  unfold occurrences. induction all_azs as [|z all_azs IH].
  - simpl. by repeat case_match.
  - destruct (decide (z = az)) as [->|Hne].
    + rewrite filter_cons_True by done. simpl.
      destruct (spot_prices !! Some az) as [info|]; simpl; [|done].
      destruct (price info) as [p|]; [|done].
      destruct (float_truthy p); [|done].
      rewrite filter_cons_True by (by apply spot_offering_for). by rewrite IH.
    + rewrite (filter_cons_False (λ z, z = az)) by done.
      rewrite <- IH. simpl.
      destruct (price _) as [p|]; [|done].
      destruct (float_truthy p); [|done].
      rewrite filter_cons_False; [done|]. by rewrite spot_offering_for.
Qed.

Lemma occurrences_absent (az : string) (all_azs : list string) :
  az ∉ all_azs → occurrences az all_azs = 0.
Proof.
  unfold occurrences. induction all_azs as [|z all_azs IH]; [done|].
  intros [Hne Hnotin]%not_elem_of_cons.
  rewrite filter_cons_False by done. by apply IH.
Qed.

Lemma occurrences_NoDup (az : string) (all_azs : list string) :
  NoDup all_azs → az ∈ all_azs → occurrences az all_azs = 1.
Proof.
  induction 1 as [|z all_azs Hnotin Hnodup IH]; [by intros ?%elem_of_nil|].
  intros [-> | Hin]%elem_of_cons.
  - pose proof (occurrences_absent _ _ Hnotin) as Habs. unfold occurrences in *.
    rewrite filter_cons_True by done. simpl. by rewrite Habs.
  - specialize (IH Hin). unfold occurrences in *.
    rewrite filter_cons_False; [done|]. intros ->. done.
Qed.

(** C1, amended. For every record and every zone: when the spot-price
    query returned at least one price entry for the zone, there is a price
    [p] among them below which none of them lies (the minimum observed),
    and, if [p] is not zero, the record holds one spot Offering for the
    zone per occurrence of the zone in the zone list (exactly one for a
    zone listed once), each with Price [p], and no other spot Offering for
    the zone; if [p] is zero, or when no price entry was returned for the
    zone, the record holds no spot Offering for it. *)
Theorem spot_offerings_of_record w region_ instance_type all_azs r az :
  process_instance_type w region_ instance_type all_azs = Ret (Some r) →
  (observed_prices (Some az) (spot_price_history w region_ instance_type) = [] →
     filter (is_spot_offering_for az) (offerings r) = []) ∧
  (observed_prices (Some az) (spot_price_history w region_ instance_type) ≠ [] →
     ∃ p,
       p ∈ observed_prices (Some az) (spot_price_history w region_ instance_type) ∧
       (∀ q, q ∈ observed_prices (Some az) (spot_price_history w region_ instance_type) →
             SFltb q p = false) ∧
       (float_truthy p = true →
          filter (is_spot_offering_for az) (offerings r)
          = replicate (occurrences az all_azs) (spot_offering p true az) ∧
          (NoDup all_azs → az ∈ all_azs →
             filter (is_spot_offering_for az) (offerings r) = [spot_offering p true az])) ∧
       (float_truthy p = false →
          filter (is_spot_offering_for az) (offerings r) = [])).
Proof.
  intros Hr.
  apply process_instance_type_inv in Hr as (d & sp & od & _ & Hsp & _ & ->). simpl.
  rewrite filter_app, filter_spot_of_on_demand, app_nil_r, filter_spot_of_spot.
  rewrite (get_spot_prices_spec _ _ _ _ Hsp). split.
  - intros ->. done.
  - intros Hne. destruct (lowest_None _ Hne) as (p & Hp & Hin & Hmin).
    exists p. split; [done|]. split; [done|].
    rewrite Hp. simpl. split; intros ->; [|done]. split; [done|].
    intros Hnodup Haz. by rewrite occurrences_NoDup.
Qed.

(** C2, amended. For every record: when an on-demand price is found and is
    not zero, the on-demand Offerings of the record are exactly one per
    zone of the full zone list, in the order of the list, each with that
    same price and Available true; when no on-demand price is found, or
    the price found is zero, the record holds no on-demand Offering. *)
Theorem on_demand_offerings_of_record w region_ instance_type all_azs r :
  process_instance_type w region_ instance_type all_azs = Ret (Some r) →
  ∃ on_demand_price,
    get_on_demand_price w region_ instance_type = Ret on_demand_price ∧
    (∀ p, on_demand_price = Some p → float_truthy p = true →
       filter is_on_demand_offering (offerings r) = on_demand_offering p <$> all_azs ∧
       ∀ o, o ∈ filter is_on_demand_offering (offerings r) →
            Price o = p ∧ Available o = true) ∧
    (on_demand_price = None → filter is_on_demand_offering (offerings r) = []) ∧
    (∀ p, on_demand_price = Some p → float_truthy p = false →
       filter is_on_demand_offering (offerings r) = []).
Proof.
  intros Hr.
  apply process_instance_type_inv in Hr as (d & sp & od & _ & _ & Hod & ->). simpl.
  exists od. split; [done|].
  rewrite filter_app, filter_on_demand_of_spot, filter_on_demand_of_on_demand. simpl.
  split.
  - intros p -> Hp. simpl. rewrite Hp. split; [done|].
    intros o (z & -> & _)%list_elem_of_fmap. done.
  - split; [by intros ->|]. intros p -> Hp. simpl. by rewrite Hp.
Qed.

(** C10. An Offering is emitted for a truthy price only: every Offering of
    a record has a price that is not zero; when the lowest spot price kept
    for a zone is zero, the record holds no spot Offering for the zone,
    although a price entry was found; when the on-demand price extracted
    is zero, the record holds no on-demand Offering for any zone. *)
Theorem zero_price_emits_no_offering w region_ instance_type all_azs r :
  process_instance_type w region_ instance_type all_azs = Ret (Some r) →
  (∀ o, o ∈ offerings r → float_truthy (Price o) = true) ∧
  (∀ (spot_prices : gmap (option string) spot_info) az info sign,
     get_spot_prices w region_ instance_type = Ret spot_prices →
     spot_prices !! Some az = Some info →
     price info = Some (S754_zero sign) →
     filter (is_spot_offering_for az) (offerings r) = []) ∧
  (∀ sign,
     get_on_demand_price w region_ instance_type = Ret (Some (S754_zero sign)) →
     filter is_on_demand_offering (offerings r) = []).
Proof.
  intros Hr.
  apply process_instance_type_inv in Hr as (d & sp & od & _ & Hsp & Hod & ->). simpl.
  split; [|split].
  - intros o [Ho | Ho]%elem_of_app.
    + clear -Ho. induction all_azs as [|z all_azs IH]; simpl in Ho; [by apply elem_of_nil in Ho|].
      destruct (price _) as [p|]; [|by apply IH].
      destruct (float_truthy p) eqn:Hp; [|by apply IH].
      apply elem_of_cons in Ho as [-> | Ho]; [done | by apply IH].
    + unfold on_demand_offerings in Ho. destruct od as [p|]; [|by apply elem_of_nil in Ho].
      destruct (float_truthy p) eqn:Hp; [|by apply elem_of_nil in Ho].
      apply list_elem_of_fmap in Ho as (z & -> & _). done.
  - intros sp' az info sign Hsp' Hlook Hprice.
    rewrite Hsp in Hsp'. injection Hsp' as <-.
    rewrite filter_app, filter_spot_of_on_demand, app_nil_r, filter_spot_of_spot.
    by rewrite Hlook, Hprice.
  - intros sign Hod'. rewrite Hod in Hod'. injection Hod' as ->.
    by rewrite filter_app, filter_on_demand_of_spot, filter_on_demand_of_on_demand.
Qed.

(** *** The loop over the completed futures *)

Lemma collect_results_inv futures acc results :
  collect_results futures acc = Ret results → results = acc ++ omap record_of futures.
Proof.
  revert acc. induction futures as [|future futures IH]; intros acc; simpl.
  - intros [= <-]. by rewrite app_nil_r.
  - destruct future as [[r|]|e|code]; simpl; intros H.
    + apply IH in H. by rewrite H, <- app_assoc.
    + by apply IH.
    + by apply IH.
    + discriminate.
Qed.

(** A future that raises leaves the loop as it found it. *)
Lemma collect_results_skip f it e (l : list string) acc :
  f it = Raise e →
  collect_results (f <$> l) acc = collect_results (f <$> filter (λ x, x ≠ it) l) acc.
Proof.
  intros Hit. revert acc. induction l as [|x l IH]; intros acc; [done|].
  destruct (decide (x = it)) as [->|Hne].
  - rewrite filter_cons_False by (intros Hx; by apply Hx).
    rewrite fmap_cons. simpl. rewrite Hit. apply IH.
  - rewrite filter_cons_True by done. rewrite !fmap_cons. simpl.
    destruct (f x) as [[r|]|e'|code]; auto.
Qed.

Lemma process_instance_type_name w region_ instance_type all_azs r :
  process_instance_type w region_ instance_type all_azs = Ret (Some r) → name r = instance_type.
Proof. by intros (d & sp & od & _ & _ & _ & ->)%process_instance_type_inv. Qed.

(** The body of [main] once the zones and the instance types are known. *)
Lemma main_results_unfold w args all_azs all_instance_types :
  get_availability_zones w (region args) = Ret all_azs →
  resolve_families w (region args) (instance_families args) [] = Ret all_instance_types →
  all_instance_types ≠ [] →
  (0 < max_workers args)%Z →
  main_results w args =
    collect_results
      ((λ instance_type, process_instance_type w (region args) instance_type all_azs)
         <$> as_completed all_instance_types)
      [].
Proof.
  intros Hz Hres Hne Hw. unfold main_results. rewrite Hz. simpl. rewrite Hres. simpl.
  rewrite bool_decide_false by done.
  destruct (max_workers args <=? 0)%Z eqn:Hle; [lia|done].
Qed.

Lemma main_written_inv w args path results :
  written (main w args) = Some (path, results) → main_results w args = Ret results.
Proof.
  unfold main, write_output.
  destruct (main_results w args) as [res|e|code]; simpl; [|done|done].
  destruct (open_for_writing w (output args)); simpl; [|done].
  by intros [= _ ->].
Qed.

(** Every record that a worker returns is in the results of a run that
    writes its output. *)
Lemma returned_record_is_written w args all_azs all_instance_types it r path results :
  (∀ l, as_completed l ≡ₚ l) →
  get_availability_zones w (region args) = Ret all_azs →
  resolve_families w (region args) (instance_families args) [] = Ret all_instance_types →
  it ∈ all_instance_types →
  process_instance_type w (region args) it all_azs = Ret (Some r) →
  written (main w args) = Some (path, results) →
  r ∈ results.
Proof.
  intros Hperm Hz Hres Hit Hr Hwritten.
  apply main_written_inv in Hwritten.
  unfold main_results in Hwritten. rewrite Hz in Hwritten. simpl in Hwritten.
  rewrite Hres in Hwritten. simpl in Hwritten.
  destruct (bool_decide (all_instance_types = [])); [done|].
  destruct (max_workers args <=? 0)%Z; [done|].
  apply collect_results_inv in Hwritten as ->. simpl.
  apply list_elem_of_omap. exists (Ret (Some r)). split; [|done].
  apply list_elem_of_fmap. exists it. split; [done|]. by rewrite Hperm.
Qed.

Lemma collect_results_Ret futures acc :
  (∀ code, SysExit code ∉ futures) →
  collect_results futures acc = Ret (acc ++ omap record_of futures).
Proof.
  revert acc. induction futures as [|future futures IH]; intros acc Hnone; simpl.
  - by rewrite app_nil_r.
  - assert (∀ code, SysExit code ∉ futures) as Hnone'.
    { intros code Hin. apply (Hnone code). by right. }
    destruct future as [[r|]|e|code]; simpl.
    + rewrite IH by done. by rewrite <- app_assoc.
    + by apply IH.
    + by apply IH.
    + destruct (Hnone code). by left.
Qed.

(** C9, amended. In a batch where no enrichment ends the process and
    whose output file can be opened: when the enrichment of one instance
    type raises an exception, the run still ends with status 0 and writes
    its results; they are the records returned for the futures of the other
    instance types, in the order of completion; no record among them bears
    the name of the instance type that raised, and every record returned by
    the enrichment of another instance type of the batch is among them. *)
Theorem raising_worker_is_left_out w args all_azs all_instance_types it e :
  (∀ l, as_completed l ≡ₚ l) →
  get_availability_zones w (region args) = Ret all_azs →
  resolve_families w (region args) (instance_families args) [] = Ret all_instance_types →
  (0 < max_workers args)%Z →
  open_for_writing w (output args) = true →
  it ∈ all_instance_types →
  process_instance_type w (region args) it all_azs = Raise e →
  (∀ it' code, it' ∈ all_instance_types →
     process_instance_type w (region args) it' all_azs ≠ SysExit code) →
  ∃ results,
    main w args = {| exit_status := 0; written := Some (output args, results) |} ∧
    results =
      omap record_of
        ((λ instance_type, process_instance_type w (region args) instance_type all_azs)
           <$> filter (λ x, x ≠ it) (as_completed all_instance_types)) ∧
    (∀ r, r ∈ results → name r ≠ it) ∧
    (∀ it' r', it' ∈ all_instance_types →
       process_instance_type w (region args) it' all_azs = Ret (Some r') →
       r' ∈ results).
Proof.
  intros Hperm Hz Hres Hw Hopen Hit Hraise Hnoexit.
  assert (all_instance_types ≠ []) as Hne by (intros ->; by apply elem_of_nil in Hit).
  eexists. split; [|split; [reflexivity|split]].
  - unfold main, write_output. rewrite (main_results_unfold _ _ _ _ Hz Hres Hne Hw).
    rewrite (collect_results_skip _ it e) by done.
    rewrite collect_results_Ret; [simpl; by rewrite Hopen|].
    intros code (it' & Hit' & Hin)%list_elem_of_fmap.
    apply list_elem_of_filter in Hin as [_ Hin]. rewrite Hperm in Hin.
    by destruct (Hnoexit it' code Hin).
  - intros r (future & Hfuture & Hrec)%list_elem_of_omap Hname.
    apply list_elem_of_fmap in Hfuture as (it' & -> & Hin).
    apply list_elem_of_filter in Hin as [Hne' _].
    destruct (process_instance_type w (region args) it' all_azs) as [[r'|]|e'|code] eqn:Hp;
      simpl in Hrec; try discriminate.
    injection Hrec as ->.
    apply process_instance_type_name in Hp. congruence.
  - intros it' r' Hit' Hr'.
    apply list_elem_of_omap. exists (Ret (Some r')). split; [|done].
    apply list_elem_of_fmap. exists it'. split; [done|].
    apply list_elem_of_filter. split; [|by rewrite Hperm].
    intros ->. rewrite Hraise in Hr'. discriminate.
Qed.

(** C3, amended. A spot-price query that fails counts as a query that
    returned no price: when the hardware details of the instance type are
    found and the on-demand lookup returns, the enrichment still returns a
    record; it holds no spot Offering, its Offerings are the on-demand
    ones, and it is in the results of every run that writes its output. *)
Theorem spot_query_failure_keeps_record w args all_azs all_instance_types it d on_demand_price :
  (∀ l, as_completed l ≡ₚ l) →
  get_availability_zones w (region args) = Ret all_azs →
  resolve_families w (region args) (instance_families args) [] = Ret all_instance_types →
  it ∈ all_instance_types →
  (describe_spot_price_history w (region args) it = CalledProcessError
   ∨ describe_spot_price_history w (region args) it = JSONDecodeError) →
  get_instance_details w (region args) it = Ret (Some d) →
  get_on_demand_price w (region args) it = Ret on_demand_price →
  get_spot_prices w (region args) it = Ret ∅ ∧
  ∃ r,
    process_instance_type w (region args) it all_azs = Ret (Some r) ∧
    name r = it ∧
    offerings r = on_demand_offerings on_demand_price all_azs ∧
    (∀ az, filter (is_spot_offering_for az) (offerings r) = []) ∧
    (∀ path results, written (main w args) = Some (path, results) → r ∈ results).
Proof.
  intros Hperm Hz Hres Hit Hfail Hd Hod.
  assert (get_spot_prices w (region args) it = Ret ∅) as Hsp.
  { unfold get_spot_prices. by destruct Hfail as [-> | ->]. }
  split; [done|].
  pose proof (process_instance_type_Ret _ _ _ all_azs _ _ _ Hd Hsp Hod) as Hr.
  eexists. split; [exact Hr|]. simpl.
  assert (spot_offerings ∅ all_azs = []) as Hnone.
  { clear. induction all_azs as [|z all_azs IH]; [done|]. simpl. by rewrite lookup_empty. }
  rewrite Hnone. simpl. split; [done|]. split; [done|]. split.
  - intros az. apply filter_spot_of_on_demand.
  - intros path results Hwritten.
    apply (returned_record_is_written w args all_azs all_instance_types it _ path results
             Hperm Hz Hres Hit); [|done].
    by rewrite Hr, Hnone.
Qed.

(** ** Further properties *)

(** *** Listing zones and instance types *)

Lemma mapM_item_Ret {A} (f : A → option string) (l : list A) (ys : list string) :
  mapM (λ x, item (f x)) l = Ret ys ↔ f <$> l = Some <$> ys.
Proof.
  revert ys. induction l as [|x l IH]; intros ys; simpl.
  - split; [by intros [= <-] | by destruct ys].
  - destruct (f x) as [y|] eqn:Hx; simpl.
    + destruct (mapM (λ x, item (f x)) l) as [ys'|e|code] eqn:Hl; simpl.
      * split.
        -- intros [= <-]. rewrite fmap_cons. f_equal. by apply IH.
        -- destruct ys as [|y' ys]; [done|]. rewrite fmap_cons. intros [= -> Hys].
           apply IH in Hys. by injection Hys as ->.
      * split; [done|]. destruct ys as [|y' ys]; [done|]. rewrite fmap_cons.
        intros [= _ Hys]. by apply IH in Hys.
      * split; [done|]. destruct ys as [|y' ys]; [done|]. rewrite fmap_cons.
        intros [= _ Hys]. by apply IH in Hys.
    + split; [done|]. by destruct ys.
Qed.

Lemma mapM_item_Raise {A} (f : A → option string) (l : list A) (e : exn) :
  mapM (λ x, item (f x)) l = Raise e ↔ e = KeyError ∧ ∃ x, x ∈ l ∧ f x = None.
Proof.
  revert e. induction l as [|x l IH]; intros e; simpl.
  - split; [done|]. by intros [_ (x & ?%elem_of_nil & _)].
  - destruct (f x) as [y|] eqn:Hx; simpl.
    + destruct (mapM (λ x, item (f x)) l) as [ys'|e'|code] eqn:Hl; simpl.
      * split; [done|]. intros [He (x' & [-> | Hin]%elem_of_cons & Hx')]; [congruence|].
        assert (Ret ys' = Raise e) as Habs by (apply IH; eauto). discriminate.
      * destruct (proj1 (IH e') eq_refl) as (-> & x' & Hin & Hx').
        split.
        -- intros [= <-]. split; [done|]. exists x'. split; [by right | done].
        -- by intros [-> _].
      * split; [done|]. intros [He (x' & [-> | Hin]%elem_of_cons & Hx')]; [congruence|].
        assert (SysExit code = Raise e) as Habs by (apply IH; eauto). discriminate.
    + split.
      * intros [= <-]. split; [done|]. exists x. split; [by left | done].
      * by intros [-> _].
Qed.

(** The outcome of a call that lists names: [run_aws_command] followed by
    [[entry[key] for entry in result.get(..., [])]]. *)
Lemma listing_outcome {A B} (answer : cli A) (entries : A → option (list B))
    (f : B → option string) :
  (∀ names,
     run_aws_command answer ≫= (λ result, mapM (λ x, item (f x)) (default [] (entries result)))
       = Ret names
     ↔ ∃ result, answer = CliOk result ∧ f <$> default [] (entries result) = Some <$> names) ∧
  (∀ e,
     run_aws_command answer ≫= (λ result, mapM (λ x, item (f x)) (default [] (entries result)))
       = Raise e
     ↔ e = KeyError ∧
       ∃ result x, answer = CliOk result ∧ x ∈ default [] (entries result) ∧ f x = None) ∧
  (∀ code,
     run_aws_command answer ≫= (λ result, mapM (λ x, item (f x)) (default [] (entries result)))
       = SysExit code
     ↔ code = 1%Z ∧ (answer = CalledProcessError ∨ answer = JSONDecodeError)).
Proof.
  destruct answer as [result| |]; simpl.
  - split; [|split].
    + intros names. rewrite mapM_item_Ret. split; [eauto|].
      by intros (result' & [= <-] & H).
    + intros e. rewrite mapM_item_Raise. split.
      * intros [-> (x & Hin & Hx)]. eauto 10.
      * intros [-> (result' & x & [= <-] & Hin & Hx)]. eauto.
    + intros code. split; [by intros ?%mapM_item_not_exit|]. by intros [_ [|]].
  - split; [|split].
    + intros names. split; [done|]. by intros (? & ? & _).
    + intros e. split; [done|]. by intros (_ & ? & ? & ? & _).
    + intros code. split; [intros [= <-]; eauto | by intros [-> _]].
  - split; [|split].
    + intros names. split; [done|]. by intros (? & ? & _).
    + intros e. split; [done|]. by intros (_ & ? & ? & ? & _).
    + intros code. split; [intros [= <-]; eauto | by intros [-> _]].
Qed.

(** X1. The zone lister returns the [ZoneName] of every entry of the
    answer, in the order of the answer; it raises [KeyError] exactly when
    the answer decodes and one of its entries has no [ZoneName]; it ends
    the process, with status 1, exactly when the call fails or its answer
    does not decode. *)
Theorem get_availability_zones_outcome w region_ :
  (∀ all_azs,
     get_availability_zones w region_ = Ret all_azs
     ↔ ∃ result, describe_availability_zones w region_ = CliOk result ∧
                 ZoneName <$> default [] (AvailabilityZones result) = Some <$> all_azs) ∧
  (∀ e,
     get_availability_zones w region_ = Raise e
     ↔ e = KeyError ∧
       ∃ result az, describe_availability_zones w region_ = CliOk result ∧
                    az ∈ default [] (AvailabilityZones result) ∧ ZoneName az = None) ∧
  (∀ code,
     get_availability_zones w region_ = SysExit code
     ↔ code = 1%Z ∧ (describe_availability_zones w region_ = CalledProcessError
                     ∨ describe_availability_zones w region_ = JSONDecodeError)).
Proof. apply (listing_outcome (describe_availability_zones w region_) AvailabilityZones ZoneName). Qed.

(** X2. The family resolver asks for the instance types that match the
    family token followed by [.*] and returns the [InstanceType] of every
    entry of the answer, in order (none for an answer without entries); it
    raises [KeyError] exactly when an entry has no [InstanceType], and ends
    the process with status 1 exactly when the call fails or its answer
    does not decode. *)
Theorem get_instance_types_for_family_outcome w region_ instance_family :
  (∀ instance_types,
     get_instance_types_for_family w region_ instance_family = Ret instance_types
     ↔ ∃ result,
         describe_instance_types_filter w region_ (instance_family +:+ ".*") = CliOk result ∧
         InstanceType <$> default [] (InstanceTypes result) = Some <$> instance_types) ∧
  (∀ e,
     get_instance_types_for_family w region_ instance_family = Raise e
     ↔ e = KeyError ∧
       ∃ result instance,
         describe_instance_types_filter w region_ (instance_family +:+ ".*") = CliOk result ∧
         instance ∈ default [] (InstanceTypes result) ∧ InstanceType instance = None) ∧
  (∀ code,
     get_instance_types_for_family w region_ instance_family = SysExit code
     ↔ code = 1%Z ∧
       (describe_instance_types_filter w region_ (instance_family +:+ ".*") = CalledProcessError
        ∨ describe_instance_types_filter w region_ (instance_family +:+ ".*") = JSONDecodeError)).
Proof.
  apply (listing_outcome (describe_instance_types_filter w region_ (instance_family +:+ ".*"))
           InstanceTypes InstanceType).
Qed.

(** *** The substitution on family tokens *)

(** X3. A family token in which no dot is followed by a digit goes to the
    query as it is: a size without a leading digit, as in [g6.xlarge], is
    not removed. *)
Theorem sub_size_suffix_no_dot_digit s :
  has_dot_digit s = false → sub_size_suffix s = s.
Proof.
  induction s as [|c s IH]; [done|]. intros Hs.
  change (sub_size_suffix (String c s)) with
    (match match_size_suffix (String c s) with
     | Some rest => rest
     | None => String c (sub_size_suffix s)
     end).
  rewrite match_size_suffix_no_dot_digit by done.
  f_equal. apply IH. destruct s as [|d s]; [done|].
  simpl in Hs. by apply orb_false_iff in Hs as [_ Hs].
Qed.

Lemma match_size_suffix_no_newline c s rest :
  has_newline (String c s) = false →
  match_size_suffix (String c s) = Some rest → rest = EmptyString.
Proof.
  destruct s as [|d s]; simpl; [done|].
  intros [_ [_ Hs]%orb_false_iff]%orb_false_iff.
  destruct (bool_decide (c = dot) && is_digit d); [|done].
  rewrite match_to_end_no_newline by done. by intros [= <-].
Qed.

Lemma match_size_suffix_None_no_newline c d s :
  has_newline s = false →
  match_size_suffix (String c (String d s)) = None →
  bool_decide (c = dot) && is_digit d = false.
Proof.
  intros Hs. simpl. destruct (bool_decide (c = dot) && is_digit d); [|done].
  by rewrite match_to_end_no_newline.
Qed.

(** The result of the substitution on a token without a newline is the
    part of the token before its first dot followed by a digit. *)
Lemma sub_size_suffix_prefix s :
  has_newline s = false → ∃ t, s = sub_size_suffix s +:+ t.
Proof.
  induction s as [|c s IH]; [by exists EmptyString|]. intros Hs.
  change (sub_size_suffix (String c s)) with
    (match match_size_suffix (String c s) with
     | Some rest => rest
     | None => String c (sub_size_suffix s)
     end).
  destruct (match_size_suffix (String c s)) as [rest|] eqn:Hm.
  - apply match_size_suffix_no_newline in Hm as ->; [|done]. by exists (String c s).
  - simpl in Hs. apply orb_false_iff in Hs as [_ Hs].
    destruct (IH Hs) as [t Ht]. exists t.
    change (String c s = String c (sub_size_suffix s +:+ t)). by f_equal.
Qed.

(** X4. On a family token without a newline the substitution leaves a
    beginning of the token in which no dot is followed by a digit, and
    applying it again changes nothing. *)
Theorem sub_size_suffix_no_newline s :
  has_newline s = false →
  (∃ t, s = sub_size_suffix s +:+ t) ∧
  has_dot_digit (sub_size_suffix s) = false ∧
  sub_size_suffix (sub_size_suffix s) = sub_size_suffix s.
Proof.
  intros Hs. split; [by apply sub_size_suffix_prefix|].
  assert (has_dot_digit (sub_size_suffix s) = false) as Hnone.
  { induction s as [|c s IH]; [done|].
    change (sub_size_suffix (String c s)) with
      (match match_size_suffix (String c s) with
       | Some rest => rest
       | None => String c (sub_size_suffix s)
       end).
    destruct (match_size_suffix (String c s)) as [rest|] eqn:Hm.
    - by apply match_size_suffix_no_newline in Hm as ->.
    - pose proof Hs as Hs'. simpl in Hs'. apply orb_false_iff in Hs' as [_ Hs'].
      specialize (IH Hs').
      destruct (sub_size_suffix_prefix s Hs') as [t Ht].
      destruct (sub_size_suffix s) as [|d s1] eqn:Hsub; [done|].
      change (has_dot_digit (String c (String d s1))) with
        ((bool_decide (c = dot) && is_digit d) || has_dot_digit (String d s1)).
      rewrite IH, orb_false_r.
      rewrite Ht in Hm, Hs'. simpl in Hm, Hs'.
      apply orb_false_iff in Hs' as [_ Hs'].
      destruct (bool_decide (c = dot) && is_digit d); [|done].
      by rewrite match_to_end_no_newline in Hm. }
  split; [done|]. by apply sub_size_suffix_bare.
Qed.

(** *** The loop over the families *)

(** X5. Resolving a list of families is resolving its beginning and then
    its end: the instance types are gathered in the order of the families,
    and a failure in a family stops the run before the families after
    it. *)
Theorem resolve_families_app w region_ families1 families2 acc :
  resolve_families w region_ (families1 ++ families2) acc
  = resolve_families w region_ families1 acc ≫= resolve_families w region_ families2.
Proof.
  revert acc. induction families1 as [|family families1 IH]; intros acc; [done|].
  simpl. destruct (get_instance_types_for_family w region_ (sub_size_suffix family));
    simpl; [apply IH | done | done].
Qed.

(** X6. When each family resolves, the instance types of the run are
    those of the families one after the other, in the order requested: a
    family requested twice gives its instance types twice. *)
Theorem resolve_families_concat w region_ families (lists : list (list string)) acc :
  Forall2 (λ family instance_types,
             get_instance_types_for_family w region_ (sub_size_suffix family)
             = Ret instance_types) families lists →
  resolve_families w region_ families acc = Ret (acc ++ concat lists).
Proof.
  intros Hall. revert acc.
  induction Hall as [|family instance_types families lists Hfam _ IH]; intros acc; simpl.
  - by rewrite app_nil_r.
  - rewrite Hfam. simpl. rewrite IH. by rewrite <- app_assoc.
Qed.

(** *** The spot-price query *)

Lemma spot_price_step_parses (m : gmap (option string) spot_info) (pi : price_info)
    (f : pyfloat) :
  float_of (SpotPrice pi) = Ret f → ∃ m1, spot_price_step m pi = Ret m1.
Proof.
  intros Hf. unfold spot_price_step. rewrite Hf. simpl.
  destruct (match m !! AvailabilityZone pi with
            | Some kept => SFltb f (default float_inf (price kept))
            | None => true
            end); eauto.
Qed.

(** [float()] returns a float or raises. *)
Lemma float_of_cases x : (∃ f, float_of x = Ret f) ∨ (∃ e, float_of x = Raise e).
Proof. destruct x as [[f| | |]|]; simpl; eauto. Qed.

Lemma spot_price_loop_not_exit (history : list price_info)
    (m : gmap (option string) spot_info) (code : Z) :
  spot_price_loop history m ≠ SysExit code.
Proof.
  revert m. induction history as [|pi history IH]; intros m; simpl; [done|].
  destruct (float_of_cases (SpotPrice pi)) as [[f Hf] | [e Hf]].
  - destruct (spot_price_step_parses m pi f Hf) as [m1 ->]. simpl. apply IH.
  - unfold spot_price_step. rewrite Hf. done.
Qed.

(** The loop raises what [float()] raises on the first entry that it
    rejects. *)
Lemma spot_price_loop_Raise (history : list price_info)
    (m : gmap (option string) spot_info) (e : exn) :
  spot_price_loop history m = Raise e ↔
  ∃ before pi after,
    history = before ++ pi :: after ∧
    (∀ pi', pi' ∈ before → ∃ f, float_of (SpotPrice pi') = Ret f) ∧
    float_of (SpotPrice pi) = Raise e.
Proof.
  revert m. induction history as [|pi0 history IH]; intros m; simpl.
  - split; [done|]. intros (before & pi & after & Hh & _). by destruct before.
  - destruct (float_of_cases (SpotPrice pi0)) as [[f Hf] | [e0 Hf]].
    + destruct (spot_price_step_parses m pi0 f Hf) as [m1 ->]. simpl.
      rewrite IH. split.
      * intros (before & pi & after & -> & Hbefore & Hpi).
        exists (pi0 :: before), pi, after. split; [done|]. split; [|done].
        intros pi' [-> | Hin]%elem_of_cons; eauto.
      * intros (before & pi & after & Hh & Hbefore & Hpi).
        destruct before as [|pi1 before]; simpl in Hh; injection Hh as -> ->.
        -- rewrite Hf in Hpi. discriminate.
        -- exists before, pi, after. split; [done|]. split; [|done].
           intros pi' Hin. apply Hbefore. by right.
    + unfold spot_price_step. rewrite Hf. simpl. split.
      * intros [= <-]. exists [], pi0, history. split; [done|]. split; [|done].
        by intros pi' ?%elem_of_nil.
      * intros (before & pi & after & Hh & Hbefore & Hpi).
        destruct before as [|pi1 before]; simpl in Hh; injection Hh as -> ->.
        -- rewrite Hf in Hpi. by injection Hpi as ->.
        -- destruct (Hbefore pi1) as [f Hf']; [by left|]. rewrite Hf in Hf'. discriminate.
Qed.

(** The loop returns exactly when [float()] accepts every price. *)
Lemma spot_price_loop_Ret (history : list price_info) (m : gmap (option string) spot_info) :
  (∃ m', spot_price_loop history m = Ret m')
  ↔ ∀ pi, pi ∈ history → ∃ f, float_of (SpotPrice pi) = Ret f.
Proof.
  revert m. induction history as [|pi0 history IH]; intros m; simpl.
  - split; [by intros _ pi ?%elem_of_nil | eauto].
  - destruct (float_of_cases (SpotPrice pi0)) as [[f Hf] | [e0 Hf]].
    + destruct (spot_price_step_parses m pi0 f Hf) as [m1 ->]. simpl.
      rewrite IH. split.
      * intros Hall pi [-> | Hin]%elem_of_cons; eauto.
      * intros Hall pi Hin. apply Hall. by right.
    + unfold spot_price_step. rewrite Hf. simpl. split.
      * by intros [m' ?].
      * intros Hall. destruct (Hall pi0) as [f Hf']; [by left|].
        rewrite Hf in Hf'. discriminate.
Qed.

Lemma get_spot_prices_not_exit w region_ instance_type code :
  get_spot_prices w region_ instance_type ≠ SysExit code.
Proof.
  unfold get_spot_prices.
  destruct (describe_spot_price_history w region_ instance_type) as [d| |];
    [apply spot_price_loop_not_exit | done | done].
Qed.

Lemma get_spot_prices_Raise w region_ instance_type e :
  get_spot_prices w region_ instance_type = Raise e ↔
  ∃ before pi after,
    spot_price_history w region_ instance_type = before ++ pi :: after ∧
    (∀ pi', pi' ∈ before → ∃ f, float_of (SpotPrice pi') = Ret f) ∧
    float_of (SpotPrice pi) = Raise e.
Proof.
  unfold get_spot_prices, spot_price_history.
  destruct (describe_spot_price_history w region_ instance_type) as [d| |].
  - apply spot_price_loop_Raise.
  - split; [done|]. intros (before & pi & after & Hh & _). by destruct before.
  - split; [done|]. intros (before & pi & after & Hh & _). by destruct before.
Qed.

(** A map is returned exactly when [float()] accepts every price. *)
Lemma get_spot_prices_Ret w region_ instance_type :
  (∃ spot_prices : gmap (option string) spot_info,
     get_spot_prices w region_ instance_type = Ret spot_prices)
  ↔ ∀ pi, pi ∈ spot_price_history w region_ instance_type →
          ∃ f, float_of (SpotPrice pi) = Ret f.
Proof.
  unfold get_spot_prices, spot_price_history.
  destruct (describe_spot_price_history w region_ instance_type) as [d| |].
  - apply spot_price_loop_Ret.
  - split; [by intros _ pi ?%elem_of_nil | eauto].
  - split; [by intros _ pi ?%elem_of_nil | eauto].
Qed.

(** X7. The spot-price step never ends the process.  It raises exactly
    when the query succeeds and [float()] rejects the [SpotPrice] of one of
    the entries, and the exception is the one that [float()] raises on the
    first such entry: [ValueError] for a text that does not read as a
    float, [TypeError] for a value that is neither a number nor a text,
    [OverflowError] for an integer beyond the floats.  It returns a map
    exactly when [float()] accepts the [SpotPrice] of every entry, an absent
    [SpotPrice] counting as 0. *)
Theorem get_spot_prices_outcome w region_ instance_type :
  (∀ code, get_spot_prices w region_ instance_type ≠ SysExit code) ∧
  (∀ e, get_spot_prices w region_ instance_type = Raise e
        ↔ ∃ before pi after,
            spot_price_history w region_ instance_type = before ++ pi :: after ∧
            (∀ pi', pi' ∈ before →
               SpotPrice pi' = None ∨ ∃ f, SpotPrice pi' = Some (Parses f)) ∧
            (SpotPrice pi = Some Unparsable ∧ e = ValueError
             ∨ SpotPrice pi = Some WrongType ∧ e = TypeError
             ∨ SpotPrice pi = Some TooLarge ∧ e = OverflowError)) ∧
  ((∃ spot_prices : gmap (option string) spot_info,
      get_spot_prices w region_ instance_type = Ret spot_prices)
   ↔ ∀ pi, pi ∈ spot_price_history w region_ instance_type →
           SpotPrice pi = None ∨ ∃ f, SpotPrice pi = Some (Parses f)).
Proof.
  assert (∀ x, (∃ f, float_of x = Ret f) ↔ x = None ∨ ∃ f, x = Some (Parses f)) as Hacc.
  { intros [[f| | |]|]; simpl; split; try (by intros [? ?]); eauto.
    - by intros [? | [? ?]].
    - by intros [? | [? ?]].
    - by intros [? | [? ?]]. }
  assert (∀ x e, float_of x = Raise e
                 ↔ x = Some Unparsable ∧ e = ValueError
                   ∨ x = Some WrongType ∧ e = TypeError
                   ∨ x = Some TooLarge ∧ e = OverflowError) as Hrej.
  { intros [[f| | |]|] e; simpl; split;
      try (by intros [[? ?] | [[? ?] | [? ?]]]); try done.
    - intros [= <-]. by left.
    - by intros [[_ ->] | [[? ?] | [? ?]]].
    - intros [= <-]. right. by left.
    - by intros [[? ?] | [[_ ->] | [? ?]]].
    - intros [= <-]. right. by right.
    - by intros [[? ?] | [[? ?] | [_ ->]]]. }
  split; [apply get_spot_prices_not_exit|]. split.
  - intros e. rewrite get_spot_prices_Raise. split.
    + intros (before & pi & after & Hh & Hbefore & Hpi).
      exists before, pi, after. split; [done|]. split; [|by apply Hrej].
      intros pi' Hin. by apply Hacc, Hbefore.
    + intros (before & pi & after & Hh & Hbefore & Hpi).
      exists before, pi, after. split; [done|]. split; [|by apply Hrej].
      intros pi' Hin. by apply Hacc, Hbefore.
  - rewrite get_spot_prices_Ret. split.
    + intros Hall pi Hin. by apply Hacc, Hall.
    + intros Hall pi Hin. by apply Hacc, Hall.
Qed.

Lemma observed_prices_nonempty (az : option string) (history : list price_info) :
  (∀ pi, pi ∈ history → ∃ f, float_of (SpotPrice pi) = Ret f) →
  observed_prices az history ≠ [] ↔ ∃ pi, pi ∈ history ∧ AvailabilityZone pi = az.
Proof.
  induction history as [|pi history IH]; intros Hall.
  - split; [done|]. by intros (pi & ?%elem_of_nil & _).
  - change (observed_prices az (pi :: history)) with
      ((if bool_decide (AvailabilityZone pi = az)
        then match float_of (SpotPrice pi) with Ret f => [f] | _ => [] end
        else []) ++ observed_prices az history).
    assert (∀ pi', pi' ∈ history → ∃ f, float_of (SpotPrice pi') = Ret f) as Hall'
      by (intros pi' Hin; apply Hall; by right).
    specialize (IH Hall'). case_bool_decide as Haz.
    + destruct (Hall pi) as [f ->]; [by left|].
      split; [|done]. intros _. exists pi. split; [by left | done].
    + simpl. rewrite IH. split.
      * intros (pi' & Hin & Hpi'). exists pi'. split; [by right | done].
      * intros (pi' & [-> | Hin]%elem_of_cons & Hpi'); [done | eauto].
Qed.

(** X8. In the map that the spot-price step returns, a zone has an entry
    exactly when the answer holds a price entry naming the zone; each entry
    of the map is marked available and holds a price that is one of the
    prices of the entries of its zone. *)
Theorem get_spot_prices_entries (w : world) (region_ instance_type : string)
    (spot_prices : gmap (option string) spot_info) :
  get_spot_prices w region_ instance_type = Ret spot_prices →
  ∀ az : option string,
    (is_Some (spot_prices !! az)
     ↔ ∃ pi, pi ∈ spot_price_history w region_ instance_type ∧ AvailabilityZone pi = az) ∧
    (∀ info, spot_prices !! az = Some info →
       available info = true ∧
       ∃ p, price info = Some p ∧
            p ∈ observed_prices az (spot_price_history w region_ instance_type)).
Proof.
  intros Hsp az.
  assert (∀ pi, pi ∈ spot_price_history w region_ instance_type →
                ∃ f, float_of (SpotPrice pi) = Ret f) as Hall.
  { apply get_spot_prices_Ret. eauto. }
  rewrite (get_spot_prices_spec _ _ _ _ Hsp).
  rewrite <- (observed_prices_nonempty az _ Hall).
  destruct (observed_prices az (spot_price_history w region_ instance_type))
    as [|q prices] eqn:Hobs.
  - simpl. split; [|done]. split; [by intros [? ?] | done].
  - destruct (lowest_None (q :: prices)) as (p & -> & Hin & _); [done|]. simpl.
    split; [split; [done | eauto]|].
    intros info [= <-]. simpl. eauto.
Qed.

(** *** The on-demand price *)

Lemma float_of_not_exit x code : float_of x ≠ SysExit code.
Proof. by destruct x as [[f| | |]|]. Qed.

(** What the two inner loops find is [float()] of the [USD] entry of the
    first price dimension of a term. *)
Lemma first_price_dimension_Some terms_ found :
  first_price_dimension terms_ = Some found →
  ∃ term_id term_info_ price_id price_info_ dims,
    (term_id, term_info_) ∈ terms_ ∧
    default [] (priceDimensions term_info_) = (price_id, price_info_) :: dims ∧
    found = float_of (USD (default no_price_per_unit (pricePerUnit price_info_))).
Proof.
  induction terms_ as [|[term_id term_info_] terms_ IH]; simpl; [done|].
  destruct (default [] (priceDimensions term_info_)) as [|[price_id price_info_] dims] eqn:Hdims.
  - intros (tid & ti & pid & pinfo & dims' & Hin & H)%IH.
    exists tid, ti, pid, pinfo, dims'. split; [by right | done].
  - intros [= <-]. exists term_id, term_info_, price_id, price_info_, dims.
    split; [by left | done].
Qed.

(** Unless the loop over the price list ends without a price, its outcome
    is that of [float()] on the price dimension found in one of the
    products. *)
Lemma price_list_loop_found products :
  price_list_loop products = Ret None ∨
  ∃ product_data_ found,
    Product product_data_ ∈ products ∧
    first_price_dimension (default [] (OnDemand (default no_terms (terms product_data_))))
      = Some found ∧
    price_list_loop products = (price_ ← found; mret (Some price_)).
Proof.
  induction products as [|[|pd] products IH]; simpl; [by left | |].
  - destruct IH as [? | (pd & found & Hin & Hfound & Hloop)]; [by left|].
    right. exists pd, found. split; [by right | done].
  - destruct (first_price_dimension _) as [found|] eqn:Hfound.
    + right. exists pd, found. split; [by left | done].
    + destruct IH as [? | (pd' & found & Hin & Hfound' & Hloop)]; [by left|].
      right. exists pd', found. split; [by right | done].
Qed.

Lemma price_list_loop_not_exit products code : price_list_loop products ≠ SysExit code.
Proof.
  destruct (price_list_loop_found products) as [-> | (pd & found & _ & Hfound & ->)]; [done|].
  apply first_price_dimension_Some in Hfound as (? & ? & ? & pinfo & ? & _ & _ & ->).
  pose proof (float_of_not_exit (USD (default no_price_per_unit (pricePerUnit pinfo)))) as Hne.
  destruct (float_of _) as [f|e|code']; simpl; [done | done |]. by destruct (Hne code').
Qed.

Lemma get_on_demand_price_not_exit w region_ instance_type code :
  get_on_demand_price w region_ instance_type ≠ SysExit code.
Proof.
  unfold get_on_demand_price.
  destruct (pricing_get_products w instance_type (default region_ (region_mapping !! region_)))
    as [d| |]; [apply price_list_loop_not_exit | done | done].
Qed.

(** X9. The on-demand step never ends the process.  When the pricing call
    fails, when its answer does not decode, and when the answer holds no
    price list or an empty one, it returns no price.  A price that it
    returns, and an exception that it raises, is what [float()] makes of the
    [USD] entry (0 when absent) of the first price dimension of an on-demand
    term of a product of the price list. *)
Theorem get_on_demand_price_outcome w region_ instance_type :
  (∀ code, get_on_demand_price w region_ instance_type ≠ SysExit code) ∧
  (pricing_get_products w instance_type (default region_ (region_mapping !! region_))
     = CalledProcessError
   ∨ pricing_get_products w instance_type (default region_ (region_mapping !! region_))
     = JSONDecodeError
   ∨ (∃ pricing_data_,
        pricing_get_products w instance_type (default region_ (region_mapping !! region_))
          = CliOk pricing_data_ ∧
        (PriceList pricing_data_ = None ∨ PriceList pricing_data_ = Some [])) →
   get_on_demand_price w region_ instance_type = Ret None) ∧
  (∀ found,
     (∃ price_, found = Ret price_ ∧
                get_on_demand_price w region_ instance_type = Ret (Some price_))
     ∨ (∃ e, found = Raise e ∧ get_on_demand_price w region_ instance_type = Raise e) →
     ∃ pricing_data_ product_data_ term_id term_info_ price_id price_info_ dims,
       pricing_get_products w instance_type (default region_ (region_mapping !! region_))
         = CliOk pricing_data_ ∧
       Product product_data_ ∈ default [] (PriceList pricing_data_) ∧
       (term_id, term_info_)
         ∈ default [] (OnDemand (default no_terms (terms product_data_))) ∧
       default [] (priceDimensions term_info_) = (price_id, price_info_) :: dims ∧
       float_of (USD (default no_price_per_unit (pricePerUnit price_info_))) = found).
Proof.
  split; [apply get_on_demand_price_not_exit|].
  unfold get_on_demand_price.
  destruct (pricing_get_products w instance_type (default region_ (region_mapping !! region_)))
    as [d| |].
  - split.
    + intros [? | [? | (d' & [= <-] & [-> | ->])]]; done.
    + intros found Hfound.
      destruct (price_list_loop_found (default [] (PriceList d)))
        as [Hnone | (pd & found' & Hin & Hfirst & Hloop)].
      { rewrite Hnone in Hfound. by destruct Hfound as [(? & _ & ?) | (? & _ & ?)]. }
      apply first_price_dimension_Some in Hfirst
        as (tid & ti & pid & pinfo & dims & Hterm & Hdims & ->).
      exists d, pd, tid, ti, pid, pinfo, dims.
      split; [done|]. split; [done|]. split; [done|]. split; [done|].
      rewrite Hloop in Hfound.
      destruct (float_of (USD (default no_price_per_unit (pricePerUnit pinfo))))
        as [f|e|code]; simpl in Hfound.
      * destruct Hfound as [(p & -> & [= ->]) | (e & _ & ?)]; done.
      * destruct Hfound as [(p & _ & ?) | (e' & -> & [= ->])]; done.
      * destruct Hfound as [(p & _ & ?) | (e' & _ & ?)]; done.
  - split; [done|]. by intros found [(? & _ & ?) | (? & _ & ?)].
  - split; [done|]. by intros found [(? & _ & ?) | (? & _ & ?)].
Qed.

(** X10. The on-demand price is decided by the first element of the price
    list that decodes to a product with a price dimension: the elements
    that do not decode and the products without a price dimension before it
    are passed over, the elements after it are not read; without such an
    element there is no price. *)
Theorem price_list_loop_first products :
  price_list_loop products =
  match filter (λ product, has_price_dimension product = true) products with
  | [] => Ret None
  | product :: _ => price_list_loop [product]
  end.
Proof.
  induction products as [|product products IH]; [done|].
  destruct (has_price_dimension product) eqn:Hhas.
  - rewrite filter_cons_True by done.
    destruct product as [|pd]; [done|]. simpl in *.
    by destruct (first_price_dimension _).
  - rewrite filter_cons_False by (by rewrite Hhas).
    rewrite <- IH. destruct product as [|pd]; [done|]. simpl in *.
    by destruct (first_price_dimension _).
Qed.

(** *** The enrichment of one instance type *)

Lemma memory_gib_text_not_exit memory_mib code : memory_gib_text memory_mib ≠ SysExit code.
Proof.
  unfold memory_gib_text, div_1024.
  by destruct (binary_normalize 53 1024 memory_mib (-10) false).
Qed.

Lemma get_instance_details_exit w region_ instance_type code :
  get_instance_details w region_ instance_type = SysExit code ↔
  code = 1%Z ∧ (describe_instance_types w region_ instance_type = CalledProcessError
                ∨ describe_instance_types w region_ instance_type = JSONDecodeError).
Proof.
  unfold get_instance_details.
  destruct (describe_instance_types w region_ instance_type) as [result| |]; simpl.
  - split; [|by intros [_ [|]]].
    destruct (InstanceTypes result) as [[|info rest]|]; simpl; try done.
    destruct (supported_architectures info ["x86_64"]); simpl; [done|].
    pose proof (memory_gib_text_not_exit
                  (default 0%Z (SizeInMiB (default no_memory_info (MemoryInfo info))))) as Hne.
    destruct (memory_gib_text _) as [text|e|code']; simpl; [done | done |].
    by destruct (Hne code').
  - split; [intros [= <-]; eauto | by intros [-> _]].
  - split; [intros [= <-]; eauto | by intros [-> _]].
Qed.

(** The enrichment ends the process exactly when its hardware query
    does. *)
Lemma process_instance_type_exit w region_ instance_type all_azs code :
  process_instance_type w region_ instance_type all_azs = SysExit code ↔
  code = 1%Z ∧ (describe_instance_types w region_ instance_type = CalledProcessError
                ∨ describe_instance_types w region_ instance_type = JSONDecodeError).
Proof.
  rewrite <- get_instance_details_exit.
  pose proof (get_spot_prices_not_exit w region_ instance_type) as Hsp.
  pose proof (get_on_demand_price_not_exit w region_ instance_type) as Hod.
  unfold process_instance_type.
  destruct (get_instance_details w region_ instance_type) as [[d|]|e|code']; simpl.
  - destruct (get_spot_prices w region_ instance_type) as [sp|e|code']; simpl.
    + destruct (get_on_demand_price w region_ instance_type) as [od|e|code']; simpl.
      * by split.
      * by split.
      * by destruct (Hod code').
    + by split.
    + by destruct (Hsp code').
  - by split.
  - by split.
  - split; by intros [= ->].
Qed.

(** X11. The enrichment of an instance type ends the process exactly when
    its hardware query fails or the answer of that query does not decode,
    and then with status 1: neither price step ends the process.  It raises
    exactly when one of its three steps raises, the exception being that of
    the step; the spot-price step runs only when the hardware step has
    returned details, and the on-demand step only when the spot-price step
    has returned. *)
Theorem process_instance_type_failures w region_ instance_type all_azs :
  (∀ code,
     process_instance_type w region_ instance_type all_azs = SysExit code
     ↔ code = 1%Z ∧ (describe_instance_types w region_ instance_type = CalledProcessError
                     ∨ describe_instance_types w region_ instance_type = JSONDecodeError)) ∧
  (∀ code, get_spot_prices w region_ instance_type ≠ SysExit code) ∧
  (∀ code, get_on_demand_price w region_ instance_type ≠ SysExit code) ∧
  (∀ e,
     process_instance_type w region_ instance_type all_azs = Raise e
     ↔ get_instance_details w region_ instance_type = Raise e
       ∨ ∃ d, get_instance_details w region_ instance_type = Ret (Some d) ∧
              (get_spot_prices w region_ instance_type = Raise e
               ∨ ∃ spot_prices,
                   get_spot_prices w region_ instance_type = Ret spot_prices ∧
                   get_on_demand_price w region_ instance_type = Raise e)).
Proof.
  split; [intros code; apply process_instance_type_exit|].
  split; [apply get_spot_prices_not_exit|].
  split; [apply get_on_demand_price_not_exit|].
  intros e. unfold process_instance_type.
  destruct (get_instance_details w region_ instance_type) as [[d|]|e'|code]; simpl.
  - destruct (get_spot_prices w region_ instance_type) as [sp|e'|code]; simpl.
    + destruct (get_on_demand_price w region_ instance_type) as [od|e'|code]; simpl.
      * split; [done|]. by intros [? | (d' & _ & [? | (sp' & _ & ?)])].
      * split.
        -- intros [= <-]. right. exists d. split; [done|]. right. eauto.
        -- by intros [? | (d' & _ & [? | (sp' & _ & [= ->])])].
      * split; [done|]. by intros [? | (d' & _ & [? | (sp' & _ & ?)])].
    + split.
      * intros [= <-]. right. exists d. split; [done|]. by left.
      * by intros [? | (d' & _ & [[= ->] | (sp' & ? & _)])].
    + split; [done|]. by intros [? | (d' & _ & [? | (sp' & ? & _)])].
  - split; [done|]. by intros [? | (d' & ? & _)].
  - split.
    + intros [= <-]. by left.
    + by intros [[= ->] | (d' & ? & _)].
  - split; [done|]. by intros [? | (d' & ? & _)].
Qed.

Lemma get_instance_details_unknown w region_ instance_type result :
  describe_instance_types w region_ instance_type = CliOk result →
  list_truthy (InstanceTypes result) = false →
  get_instance_details w region_ instance_type = Ret None.
Proof. intros Hcli Hnone. unfold get_instance_details. rewrite Hcli. simpl. by rewrite Hnone. Qed.

Lemma process_instance_type_unknown w region_ instance_type all_azs result :
  describe_instance_types w region_ instance_type = CliOk result →
  list_truthy (InstanceTypes result) = false →
  process_instance_type w region_ instance_type all_azs = Ret None.
Proof.
  intros Hcli Hnone. unfold process_instance_type.
  by rewrite (get_instance_details_unknown _ _ _ _ Hcli Hnone).
Qed.

(** X12. An instance type that the hardware query does not know (no
    list of instance types in the answer, or an empty one) gives no record
    and no error, whatever its price queries answer. *)
Theorem unknown_instance_type_is_skipped w region_ instance_type all_azs result :
  describe_instance_types w region_ instance_type = CliOk result →
  list_truthy (InstanceTypes result) = false →
  get_instance_details w region_ instance_type = Ret None ∧
  process_instance_type w region_ instance_type all_azs = Ret None.
Proof.
  intros Hcli Hnone. split.
  - by eapply get_instance_details_unknown.
  - by eapply process_instance_type_unknown.
Qed.

(** X13. When the provider reports no list of supported architectures
    for an instance type (no [ProcessorInfo], or no list in it), the
    architecture is ["amd64"]: the details are returned, with that
    architecture, exactly when the memory size divided by 1024 is within the
    floats, and every record of the instance type has that architecture. *)
Theorem architecture_default w region_ instance_type result info rest :
  describe_instance_types w region_ instance_type = CliOk result →
  InstanceTypes result = Some (info :: rest) →
  (ProcessorInfo info = None
   ∨ ∃ pinfo, ProcessorInfo info = Some pinfo ∧ SupportedArchitectures pinfo = None) →
  ((∃ d, get_instance_details w region_ instance_type = Ret (Some d) ∧
         det_architecture d = "amd64")
   ↔ ∃ quotient,
       div_1024 (default 0%Z (SizeInMiB (default no_memory_info (MemoryInfo info))))
         = Ret quotient) ∧
  (∀ all_azs r, process_instance_type w region_ instance_type all_azs = Ret (Some r) →
                architecture r = "amd64").
Proof.
  intros Hcli Hits Hnone.
  assert (supported_architectures info ["x86_64"] = ["x86_64"]) as Harchs.
  { unfold supported_architectures.
    destruct Hnone as [-> | (pinfo & -> & Hsa)]; simpl; [done | by rewrite Hsa]. }
  split.
  - unfold get_instance_details. rewrite Hcli. simpl. rewrite Hits. simpl.
    rewrite Harchs. simpl. unfold memory_gib_text.
    destruct (div_1024 _) as [quotient|e|code]; simpl.
    + split; eauto.
    + split; [by intros (d & ? & _) | by intros [quotient ?]].
    + split; [by intros (d & ? & _) | by intros [quotient ?]].
  - intros all_azs r Hr.
    destruct (record_of_info _ _ _ _ _ _ _ _ Hcli Hits Hr) as (a & archs & Ha & -> & _).
    rewrite Harchs in Ha. by injection Ha as <- <-.
Qed.

(** X14. When the provider reports an empty list of supported
    architectures for an instance type, its enrichment raises
    [IndexError]. *)
Theorem empty_architectures_raise w region_ instance_type all_azs result info rest pinfo :
  describe_instance_types w region_ instance_type = CliOk result →
  InstanceTypes result = Some (info :: rest) →
  ProcessorInfo info = Some pinfo →
  SupportedArchitectures pinfo = Some [] →
  get_instance_details w region_ instance_type = Raise IndexError ∧
  process_instance_type w region_ instance_type all_azs = Raise IndexError.
Proof.
  intros Hcli Hits Hpi Hsa.
  assert (get_instance_details w region_ instance_type = Raise IndexError) as Hd.
  { unfold get_instance_details. rewrite Hcli. simpl. rewrite Hits. simpl.
    unfold supported_architectures. rewrite Hpi. simpl. by rewrite Hsa. }
  split; [done|]. unfold process_instance_type. by rewrite Hd.
Qed.

Lemma get_instance_details_resources w region_ instance_type d :
  get_instance_details w region_ instance_type = Ret (Some d) →
  ∃ result info rest,
    describe_instance_types w region_ instance_type = CliOk result ∧
    InstanceTypes result = Some (info :: rest) ∧
    cpu (det_resources d) =
      str (default 0%Z (DefaultVCpus (default no_vcpu_info (VCpuInfo info)))) ∧
    (∃ quotient,
       div_1024 (default 0%Z (SizeInMiB (default no_memory_info (MemoryInfo info))))
         = Ret quotient ∧
       memory (det_resources d) = float_repr quotient +:+ "Gi") ∧
    ephemeral_storage (det_resources d) = "20Gi".
Proof.
  unfold get_instance_details. intros H.
  apply bind_Ret_inv in H as (result & Hrun & H).
  destruct (describe_instance_types w region_ instance_type) as [json| |] eqn:Hcli;
    simpl in Hrun; try discriminate.
  injection Hrun as ->.
  destruct (list_truthy (InstanceTypes result)) eqn:Htruthy; simpl in H; [|discriminate].
  apply list_truthy_true_inv in Htruthy as (info & rest & Hits).
  rewrite Hits in H. simpl in H.
  apply bind_Ret_inv in H as (a & Harch & H).
  apply bind_Ret_inv in H as (memory_gib & Hmem & H).
  unfold memory_gib_text in Hmem.
  apply bind_Ret_inv in Hmem as (quotient & Hq & Hmem). injection Hmem as <-.
  injection H as <-. simpl.
  exists result, info, rest. eauto 10.
Qed.

(** X15. The [cpu] resource of a record is [str] of the default number
    of vCPUs, ["0"] when the provider reports none.  Its [memory] resource
    is the text of the float nearest to the memory size in MiB divided by
    1024, followed by [Gi]: ["16.0Gi"] for 16384 MiB, ["0.0Gi"] when the
    provider reports no memory size. *)
Theorem cpu_memory_of_record w region_ instance_type all_azs r result info rest :
  describe_instance_types w region_ instance_type = CliOk result →
  InstanceTypes result = Some (info :: rest) →
  process_instance_type w region_ instance_type all_azs = Ret (Some r) →
  cpu (resources r) = str (default 0%Z (DefaultVCpus (default no_vcpu_info (VCpuInfo info)))) ∧
  (VCpuInfo info = None → cpu (resources r) = "0") ∧
  (∃ quotient,
     div_1024 (default 0%Z (SizeInMiB (default no_memory_info (MemoryInfo info))))
       = Ret quotient ∧
     memory (resources r) = float_repr quotient +:+ "Gi") ∧
  (∀ minfo, MemoryInfo info = Some minfo → SizeInMiB minfo = Some 16384%Z →
     memory (resources r) = "16.0Gi") ∧
  (MemoryInfo info = None
   ∨ (∃ minfo, MemoryInfo info = Some minfo ∧ SizeInMiB minfo = None) →
     memory (resources r) = "0.0Gi").
Proof.
  intros Hcli Hits Hr.
  apply process_instance_type_inv in Hr as (d & sp & od & Hd & _ & _ & ->). simpl.
  apply get_instance_details_resources in Hd
    as (result' & info' & rest' & Hcli' & Hits' & Hcpu & (quotient & Hq & Hmem) & _).
  rewrite Hcli in Hcli'. injection Hcli' as <-.
  rewrite Hits in Hits'. injection Hits' as <- <-.
  rewrite Hcpu, Hmem. split; [done|]. split; [by intros ->|]. split; [eauto|]. split.
  - intros minfo Hm Hsize. rewrite Hm in Hq. simpl in Hq. rewrite Hsize in Hq.
    vm_compute in Hq. injection Hq as <-. vm_compute. reflexivity.
  - intros Hm.
    assert (default 0%Z (SizeInMiB (default no_memory_info (MemoryInfo info))) = 0%Z) as Hzero.
    { destruct Hm as [-> | (minfo & -> & Hsize)]; simpl; [done | by rewrite Hsize]. }
    rewrite Hzero in Hq. vm_compute in Hq. injection Hq as <-. vm_compute. reflexivity.
Qed.

Lemma lower_ascii_idempotent c : lower_ascii (lower_ascii c) = lower_ascii c.
Proof. by destruct c as [[] [] [] [] [] [] [] []]. Qed.

Lemma lower_idempotent s : lower (lower s) = lower s.
Proof.
  induction s as [|c s IH]; [done|]. simpl. by rewrite lower_ascii_idempotent, IH.
Qed.

(** X16. Every record bears the name of its instance type, its
    architecture is never ["x86_64"], its list of operating systems is not
    empty and holds lower-case names only, and its [ephemeral-storage] is
    ["20Gi"]. *)
Theorem record_invariants w region_ instance_type all_azs r :
  process_instance_type w region_ instance_type all_azs = Ret (Some r) →
  name r = instance_type ∧
  architecture r ≠ "x86_64" ∧
  operatingSystems r ≠ [] ∧
  (∀ os, os ∈ operatingSystems r → lower os = os) ∧
  ephemeral_storage (resources r) = "20Gi".
Proof.
  intros Hr.
  apply process_instance_type_inv in Hr as (d & sp & od & Hd & _ & _ & ->). simpl.
  pose proof (get_instance_details_resources _ _ _ _ Hd) as (_ & _ & _ & _ & _ & _ & _ & Heph).
  apply get_instance_details_inv in Hd
    as (result & info & rest & a & archs & _ & _ & _ & Harch & Hos & _).
  rewrite Harch, Hos. clear Harch Hos.
  split; [done|]. split; [|split; [|split; [|done]]].
  - case_bool_decide; [discriminate | done].
  - destruct (SupportedPlatforms info) as [[|p ps]|]; simpl; done.
  - intros os. destruct (SupportedPlatforms info) as [[|p ps]|]; simpl.
    + destruct (_ || _); intros Hin; repeat (apply elem_of_cons in Hin as [-> | Hin]; [done|]);
        by apply elem_of_nil in Hin.
    + rewrite <- fmap_cons. intros (p' & -> & _)%list_elem_of_fmap. apply lower_idempotent.
    + destruct (_ || _); intros Hin; repeat (apply elem_of_cons in Hin as [-> | Hin]; [done|]);
        by apply elem_of_nil in Hin.
Qed.

(** *** The shape of the offerings *)

Lemma spot_offerings_elem (spot_prices : gmap (option string) spot_info)
    (all_azs : list string) (o : offering) :
  o ∈ spot_offerings spot_prices all_azs →
  ∃ az info p,
    az ∈ all_azs ∧ spot_prices !! Some az = Some info ∧ price info = Some p ∧
    o = spot_offering p (available info) az.
Proof.
  induction all_azs as [|z all_azs IH]; simpl; [by intros ?%elem_of_nil|].
  assert (o ∈ spot_offerings spot_prices all_azs →
          ∃ az info p,
            az ∈ z :: all_azs ∧ spot_prices !! Some az = Some info ∧ price info = Some p ∧
            o = spot_offering p (available info) az) as IH'.
  { intros (az & info & p & Hin & H)%IH. exists az, info, p. split; [by right | done]. }
  destruct (spot_prices !! Some z) as [info|] eqn:Hz; simpl; [|done].
  destruct (price info) as [p|] eqn:Hp; [|done].
  destruct (float_truthy p); [|done].
  intros [-> | Hin]%elem_of_cons; [|by apply IH'].
  exists z, info, p. split; [by left | done].
Qed.

Lemma length_spot_offerings (spot_prices : gmap (option string) spot_info)
    (all_azs : list string) :
  (length (spot_offerings spot_prices all_azs) ≤ length all_azs)%nat.
Proof.
  induction all_azs as [|z all_azs IH]; simpl; [done|].
  destruct (price _) as [p|]; [|lia]. destruct (float_truthy p); simpl; lia.
Qed.

Lemma length_on_demand_offerings on_demand_price (all_azs : list string) :
  (length (on_demand_offerings on_demand_price all_azs) ≤ length all_azs)%nat.
Proof.
  unfold on_demand_offerings. destruct on_demand_price as [p|]; simpl; [|lia].
  destruct (float_truthy p); simpl; [|lia]. by rewrite length_fmap.
Qed.

(** X17. Every Offering of a record is marked available and has exactly
    two requirements: its capacity type, spot or on-demand, and one zone,
    which is a zone of the zone list. *)
Theorem offerings_shape w region_ instance_type all_azs r :
  process_instance_type w region_ instance_type all_azs = Ret (Some r) →
  ∀ o, o ∈ offerings r →
    Available o = true ∧
    ∃ az, az ∈ all_azs ∧
          (Requirements o = [capacity_type_requirement "spot"; zone_requirement az]
           ∨ Requirements o = [capacity_type_requirement "on-demand"; zone_requirement az]).
Proof.
  intros Hr.
  apply process_instance_type_inv in Hr as (d & sp & od & _ & Hsp & _ & ->). simpl.
  intros o [Ho | Ho]%elem_of_app.
  - apply spot_offerings_elem in Ho as (az & info & p & Hin & Hlook & Hprice & ->).
    rewrite (get_spot_prices_spec _ _ _ _ Hsp) in Hlook.
    destruct (lowest None _) as [p'|]; [|done]. injection Hlook as <-.
    simpl. split; [done|]. exists az. split; [done | by left].
  - unfold on_demand_offerings in Ho. destruct od as [p|]; [|by apply elem_of_nil in Ho].
    destruct (float_truthy p); [|by apply elem_of_nil in Ho].
    apply list_elem_of_fmap in Ho as (az & -> & Hin).
    simpl. split; [done|]. exists az. split; [done | by right].
Qed.

(** X18. In a record the spot Offerings come before the on-demand ones,
    and there are at most two Offerings per entry of the zone list: none
    for an empty zone list. *)
Theorem offerings_order w region_ instance_type all_azs r :
  process_instance_type w region_ instance_type all_azs = Ret (Some r) →
  offerings r = filter (λ o, ¬ is_on_demand_offering o) (offerings r)
                ++ filter is_on_demand_offering (offerings r) ∧
  (length (offerings r) ≤ 2 * length all_azs)%nat.
Proof.
  intros Hr.
  apply process_instance_type_inv in Hr as (d & sp & od & _ & _ & _ & ->). simpl.
  split.
  - rewrite !filter_app, filter_on_demand_of_spot, filter_on_demand_of_on_demand. simpl.
    assert (filter (λ o, ¬ is_on_demand_offering o) (spot_offerings sp all_azs)
            = spot_offerings sp all_azs) as ->.
    { clear. induction all_azs as [|z all_azs IH]; simpl; [done|].
      destruct (price _) as [p|]; [|done]. destruct (float_truthy p); [|done].
      rewrite filter_cons_True by apply spot_not_on_demand. by rewrite IH. }
    assert (filter (λ o, ¬ is_on_demand_offering o) (on_demand_offerings od all_azs) = [])
      as ->; [|by rewrite app_nil_r].
    unfold on_demand_offerings. destruct od as [p|]; [|done].
    destruct (float_truthy p); [|done].
    clear. induction all_azs as [|z all_azs IH]; [done|].
    rewrite fmap_cons, filter_cons_False; [done|].
    intros Hnot. apply Hnot, on_demand_is_on_demand.
  - rewrite length_app.
    pose proof (length_spot_offerings sp all_azs).
    pose proof (length_on_demand_offerings od all_azs). lia.
Qed.

(** *** The run *)

Lemma resolve_families_exit w region_ families acc code :
  resolve_families w region_ families acc = SysExit code → code = 1%Z.
Proof.
  revert acc. induction families as [|family families IH]; intros acc; simpl; [done|].
  destruct (get_instance_types_for_family w region_ (sub_size_suffix family))
    as [its|e|code'] eqn:Hfam; simpl; [apply IH | done |].
  intros [= <-]. unfold get_instance_types_for_family in Hfam.
  destruct (listing_outcome
              (describe_instance_types_filter w region_ (sub_size_suffix family +:+ ".*"))
              InstanceTypes InstanceType) as (_ & _ & Hexit).
  by apply Hexit in Hfam as [-> _].
Qed.

Lemma collect_results_exit futures acc code :
  collect_results futures acc = SysExit code → SysExit code ∈ futures.
Proof.
  revert acc. induction futures as [|future futures IH]; intros acc; simpl; [done|].
  destruct future as [[r|]|e|code']; intros H.
  - right. by eapply IH.
  - right. by eapply IH.
  - right. by eapply IH.
  - injection H as ->. by left.
Qed.

Lemma collect_results_fatal futures acc :
  (∀ code, SysExit code ∈ futures → code = 1%Z) →
  SysExit 1 ∈ futures →
  collect_results futures acc = SysExit 1.
Proof.
  revert acc. induction futures as [|future futures IH]; intros acc Hone Hin; simpl.
  - by apply elem_of_nil in Hin.
  - assert (∀ code, SysExit code ∈ futures → code = 1%Z) as Hone'.
    { intros code Hc. apply Hone. by right. }
    destruct future as [[r|]|e|code].
    + apply elem_of_cons in Hin as [? | Hin]; [done | by apply IH].
    + apply elem_of_cons in Hin as [? | Hin]; [done | by apply IH].
    + apply elem_of_cons in Hin as [? | Hin]; [done | by apply IH].
    + f_equal. apply Hone. by left.
Qed.

Lemma length_omap_le {A B} (f : A → option B) (l : list A) :
  (length (omap f l) ≤ length l)%nat.
Proof.
  induction l as [|x l IH]; csimpl; [done|]. destruct (f x); csimpl; lia.
Qed.

Lemma main_results_exit w args code :
  main_results w args = SysExit code → code = 1%Z.
Proof.
  unfold main_results.
  destruct (get_availability_zones w (region args)) as [all_azs|e|code'] eqn:Hz; simpl; [|done|].
  - destruct (resolve_families w (region args) (instance_families args) [])
      as [its|e|code'] eqn:Hres; simpl; [|done|].
    + destruct (bool_decide (its = [])); [by intros [= <-]|].
      destruct (max_workers args <=? 0)%Z; [done|].
      intros Hexit%collect_results_exit.
      apply list_elem_of_fmap in Hexit as (it & Hit & _). symmetry in Hit.
      by apply process_instance_type_exit in Hit as [-> _].
    + intros [= <-]. by apply resolve_families_exit in Hres.
  - intros [= <-]. by apply get_availability_zones_exit in Hz.
Qed.

(** X19. The script ends in one of four ways: with status 0, having
    written records to the output path of the command line; with status 1,
    having written nothing; and, when the parser ends it, with status 0
    after the help or with status 2 on a command line that the parser
    rejects, having written nothing.  So a file is written only by a run
    that ends with status 0, and only to the output path. *)
Theorem main_status w command_line :
  match command_line with
  | Parsed args =>
      (exit_status (script w command_line) = 0%Z ∧
       ∃ results, written (script w command_line) = Some (output args, results) ∧
                  main_results w args = Ret results ∧
                  open_for_writing w (output args) = true)
      ∨ (exit_status (script w command_line) = 1%Z ∧
         written (script w command_line) = None ∧
         (open_for_writing w (output args) = false ∨ ∀ results, main_results w args ≠ Ret results))
  | HelpExit =>
      exit_status (script w command_line) = 0%Z ∧ written (script w command_line) = None
  | UsageExit =>
      exit_status (script w command_line) = 2%Z ∧ written (script w command_line) = None
  end ∧
  (∀ path results, written (script w command_line) = Some (path, results) →
     exit_status (script w command_line) = 0%Z ∧
     ∃ args, command_line = Parsed args ∧ path = output args).
Proof.
  destruct command_line as [args| |]; simpl; [|done|done].
  unfold main, write_output.
  destruct (main_results w args) as [results|e|code] eqn:Hmain; simpl.
  - destruct (open_for_writing w (output args)) eqn:Hopen; simpl.
    + split; [left; eauto|]. intros path results' [= <- <-]. eauto.
    + split; [right; eauto|]. done.
  - split; [|done]. right. split; [done|]. split; [done|]. by right.
  - apply main_results_exit in Hmain as ->.
    split; [|done]. right. split; [done|]. split; [done|]. by right.
Qed.

(** X20. What a run writes is, in the order of completion, the records
    that the enrichments of the resolved instance types return: there are
    no more records than resolved instance types, and every record bears
    the name of one of them. *)
Theorem main_written w args path results :
  (∀ l, as_completed l ≡ₚ l) →
  written (main w args) = Some (path, results) →
  path = output args ∧
  ∃ all_azs all_instance_types,
    get_availability_zones w (region args) = Ret all_azs ∧
    resolve_families w (region args) (instance_families args) [] = Ret all_instance_types ∧
    all_instance_types ≠ [] ∧
    results =
      omap record_of
        ((λ instance_type, process_instance_type w (region args) instance_type all_azs)
           <$> as_completed all_instance_types) ∧
    (length results ≤ length all_instance_types)%nat ∧
    (∀ r, r ∈ results → name r ∈ all_instance_types).
Proof.
  intros Hperm Hwritten. split.
  { unfold main, write_output in Hwritten.
    destruct (main_results w args); simpl in Hwritten; [|done|done].
    destruct (open_for_writing w (output args)); simpl in Hwritten; [|done].
    by injection Hwritten as <- _. }
  apply main_written_inv in Hwritten. unfold main_results in Hwritten.
  destruct (get_availability_zones w (region args)) as [all_azs|e|code]; simpl in Hwritten;
    [|done|done].
  destruct (resolve_families w (region args) (instance_families args) [])
    as [its|e|code]; simpl in Hwritten; [|done|done].
  case_bool_decide as Hne; [done|].
  destruct (max_workers args <=? 0)%Z; [done|].
  apply collect_results_inv in Hwritten. simpl in Hwritten.
  exists all_azs, its. split; [done|]. split; [done|]. split; [done|]. split; [done|].
  subst results. split.
  - etrans; [apply length_omap_le|]. by rewrite length_fmap, Hperm.
  - intros r (future & Hfuture & Hrec)%list_elem_of_omap.
    apply list_elem_of_fmap in Hfuture as (it & -> & Hit).
    destruct (process_instance_type w (region args) it all_azs) as [[r'|]|e|code] eqn:Hp;
      simpl in Hrec; try discriminate.
    injection Hrec as ->.
    rewrite (process_instance_type_name _ _ _ _ _ Hp). by rewrite <- (Hperm its).
Qed.

(** X21. When no enrichment ends the process, the run returns the
    records that the enrichments return: the same records, up to their
    order, as enriching the resolved instance types one after the other.
    When the output file opens, the run writes them to it and ends with
    status 0; when it does not open, the run ends with status 1 and writes
    nothing. *)
Theorem main_writes_returned_records w args all_azs all_instance_types :
  (∀ l, as_completed l ≡ₚ l) →
  get_availability_zones w (region args) = Ret all_azs →
  resolve_families w (region args) (instance_families args) [] = Ret all_instance_types →
  all_instance_types ≠ [] →
  (0 < max_workers args)%Z →
  (∀ it code, it ∈ all_instance_types →
     process_instance_type w (region args) it all_azs ≠ SysExit code) →
  ∃ results,
    main_results w args = Ret results ∧
    results ≡ₚ
      omap record_of
        ((λ instance_type, process_instance_type w (region args) instance_type all_azs)
           <$> all_instance_types) ∧
    (open_for_writing w (output args) = true →
       main w args = {| exit_status := 0; written := Some (output args, results) |}) ∧
    (open_for_writing w (output args) = false →
       main w args = {| exit_status := 1; written := None |}).
Proof.
  intros Hperm Hz Hres Hne Hw Hnoexit.
  assert (main_results w args =
          Ret ([] ++ omap record_of
                 ((λ instance_type, process_instance_type w (region args) instance_type all_azs)
                    <$> as_completed all_instance_types))) as Hmain.
  { rewrite (main_results_unfold _ _ _ _ Hz Hres Hne Hw).
    apply collect_results_Ret.
    intros code (it & Hit & Hin)%list_elem_of_fmap.
    rewrite Hperm in Hin. by destruct (Hnoexit it code Hin). }
  eexists. split; [exact Hmain|]. split; [simpl; by rewrite Hperm|].
  unfold main, write_output. rewrite Hmain. simpl. split; by intros ->.
Qed.

(** A worker that ends the process ends the run: nothing is written. *)
Lemma exiting_worker_ends_run w args all_azs all_instance_types it code :
  (∀ l, as_completed l ≡ₚ l) →
  get_availability_zones w (region args) = Ret all_azs →
  resolve_families w (region args) (instance_families args) [] = Ret all_instance_types →
  (0 < max_workers args)%Z →
  it ∈ all_instance_types →
  process_instance_type w (region args) it all_azs = SysExit code →
  main w args = {| exit_status := 1; written := None |}.
Proof.
  intros Hperm Hz Hres Hw Hit Hexit.
  assert (all_instance_types ≠ []) as Hne by (intros ->; by apply elem_of_nil in Hit).
  unfold main. rewrite (main_results_unfold _ _ _ _ Hz Hres Hne Hw).
  rewrite collect_results_fatal; [done| |].
  - intros code' (it' & Hit' & _)%list_elem_of_fmap. symmetry in Hit'.
    by apply process_instance_type_exit in Hit' as [-> _].
  - apply list_elem_of_fmap. exists it. split; [|by rewrite Hperm].
    rewrite Hexit. by apply process_instance_type_exit in Hexit as [-> _].
Qed.

(** X22. When the hardware query of one of the resolved instance types
    fails, or its answer does not decode, the whole run ends with status 1
    and writes nothing, whatever the other enrichments return. *)
Theorem failing_hardware_query_ends_run w args all_azs all_instance_types it :
  (∀ l, as_completed l ≡ₚ l) →
  get_availability_zones w (region args) = Ret all_azs →
  resolve_families w (region args) (instance_families args) [] = Ret all_instance_types →
  (0 < max_workers args)%Z →
  it ∈ all_instance_types →
  (describe_instance_types w (region args) it = CalledProcessError
   ∨ describe_instance_types w (region args) it = JSONDecodeError) →
  main w args = {| exit_status := 1; written := None |}.
Proof.
  intros Hperm Hz Hres Hw Hit Hfail.
  apply (exiting_worker_ends_run w args all_azs all_instance_types it 1 Hperm Hz Hres Hw Hit).
  by apply process_instance_type_exit.
Qed.

(** X23. With a number of workers that is not positive, a run that has
    resolved at least one instance type ends with status 1 and writes
    nothing: the pool of workers cannot be created. *)
Theorem no_workers_ends_run w args all_azs all_instance_types :
  get_availability_zones w (region args) = Ret all_azs →
  resolve_families w (region args) (instance_families args) [] = Ret all_instance_types →
  all_instance_types ≠ [] →
  (max_workers args ≤ 0)%Z →
  main w args = {| exit_status := 1; written := None |}.
Proof.
  intros Hz Hres Hne Hw. unfold main, main_results. rewrite Hz. simpl. rewrite Hres. simpl.
  rewrite bool_decide_false by done.
  destruct (max_workers args <=? 0)%Z eqn:Hle; [done | lia].
Qed.

Lemma collect_results_skip_none f it (l : list string) acc :
  f it = Ret None →
  collect_results (f <$> l) acc = collect_results (f <$> filter (λ x, x ≠ it) l) acc.
Proof.
  intros Hit. revert acc. induction l as [|x l IH]; intros acc; [done|].
  destruct (decide (x = it)) as [->|Hne].
  - rewrite filter_cons_False by (intros Hx; by apply Hx).
    rewrite fmap_cons. simpl. rewrite Hit. apply IH.
  - rewrite filter_cons_True by done. rewrite !fmap_cons. simpl.
    destruct (f x) as [[r|]|e'|code]; auto.
Qed.

(** X24. An instance type that the listing names and the hardware query
    does not know is left out of the results: the run goes on as it would
    without it, and no record that the run writes bears its name. *)
Theorem unknown_instance_type_is_left_out w args all_azs all_instance_types it result :
  get_availability_zones w (region args) = Ret all_azs →
  resolve_families w (region args) (instance_families args) [] = Ret all_instance_types →
  (0 < max_workers args)%Z →
  it ∈ all_instance_types →
  describe_instance_types w (region args) it = CliOk result →
  list_truthy (InstanceTypes result) = false →
  main_results w args =
    collect_results
      ((λ instance_type, process_instance_type w (region args) instance_type all_azs)
         <$> filter (λ x, x ≠ it) (as_completed all_instance_types))
      [] ∧
  ∀ path results, written (main w args) = Some (path, results) →
    ∀ r, r ∈ results → name r ≠ it.
Proof.
  intros Hz Hres Hw Hit Hcli Hnone.
  assert (all_instance_types ≠ []) as Hne by (intros ->; by apply elem_of_nil in Hit).
  pose proof (process_instance_type_unknown w (region args) it all_azs result Hcli Hnone)
    as Hskip.
  rewrite (main_results_unfold _ _ _ _ Hz Hres Hne Hw).
  split.
  - by apply (collect_results_skip_none _ it).
  - intros path results Hwritten r Hr Hname.
    apply main_written_inv in Hwritten.
    rewrite (main_results_unfold _ _ _ _ Hz Hres Hne Hw) in Hwritten.
    apply collect_results_inv in Hwritten as ->. simpl in Hr.
    apply list_elem_of_omap in Hr as (future & Hfuture & Hrec).
    apply list_elem_of_fmap in Hfuture as (it' & -> & _).
    destruct (process_instance_type w (region args) it' all_azs) as [[r'|]|e'|code] eqn:Hp;
      simpl in Hrec; try discriminate.
    injection Hrec as ->.
    pose proof (process_instance_type_name _ _ _ _ _ Hp) as Hn.
    rewrite Hname in Hn. subst it'. rewrite Hskip in Hp. discriminate.
Qed.

(** X25. A family that resolves to no instance type does not stop the
    run and adds nothing: the instance types gathered are those of the
    other families. *)
Theorem empty_family_is_passed_over w region_ families1 family families2 acc :
  get_instance_types_for_family w region_ (sub_size_suffix family) = Ret [] →
  resolve_families w region_ (families1 ++ family :: families2) acc
  = resolve_families w region_ (families1 ++ families2) acc.
Proof.
  intros Hempty. revert acc. induction families1 as [|family1 families1 IH]; intros acc; simpl.
  - rewrite Hempty. simpl. by rewrite app_nil_r.
  - destruct (get_instance_types_for_family w region_ (sub_size_suffix family1));
      simpl; [apply IH | done | done].
Qed.

End Script.

(** ** The sample region, run *)

Example sample_record :
  process_instance_type Sample.world_ok "us-west-2" "g6.xlarge" Sample.all_azs
  = Ret (Some Sample.g6_record).
Proof. vm_compute. reflexivity. Qed.

Example sample_main :
  main reverse Sample.world_two Sample.args
  = {| exit_status := 0; written := Some ("instance_types.json", [Sample.g6_record]) |}.
Proof. vm_compute. reflexivity. Qed.

Example sample_trailing_newline :
  sub_size_suffix ("g6.2xlarge" +:+ String newline "") = "g6" +:+ String newline "".
Proof. reflexivity. Qed.

(** *** The theorems at the sample region *)

Lemma architecture_of_record_witness :
  ("x86_64" = "x86_64" → architecture Sample.g6_record = "amd64") ∧
  ("x86_64" ≠ "x86_64" → architecture Sample.g6_record = "x86_64").
Proof.
  apply (architecture_of_record Sample.world_ok "us-west-2" "g6.xlarge"
           Sample.all_azs Sample.g6_record
           {| InstanceTypes := Some [Sample.g6_xlarge] |} Sample.g6_xlarge []
           {| SupportedArchitectures := Some ["x86_64"] |} "x86_64" []);
    vm_compute; reflexivity.
Defined.

Lemma operating_systems_of_record_witness :
  (SupportedPlatforms Sample.g6_xlarge = None ∨ SupportedPlatforms Sample.g6_xlarge = Some [] →
     (HypervisorType Sample.g6_xlarge ≠ Some "nitro"
      ∨ "windows" ∈ supported_architectures Sample.g6_xlarge [] →
        operatingSystems Sample.g6_record = ["linux"; "windows"]) ∧
     (¬ (HypervisorType Sample.g6_xlarge ≠ Some "nitro"
         ∨ "windows" ∈ supported_architectures Sample.g6_xlarge []) →
        operatingSystems Sample.g6_record = ["linux"])) ∧
  (∀ p ps, SupportedPlatforms Sample.g6_xlarge = Some (p :: ps) →
     operatingSystems Sample.g6_record = lower <$> (p :: ps)).
Proof.
  apply (operating_systems_of_record Sample.world_ok "us-west-2" "g6.xlarge"
           Sample.all_azs Sample.g6_record
           {| InstanceTypes := Some [Sample.g6_xlarge] |} Sample.g6_xlarge []);
    vm_compute; reflexivity.
Defined.

(** C4, as stated, fails for a platforms list that is reported and empty:
    the record does not hold that list, it holds ["linux"]. *)
Lemma operating_systems_empty_platforms_counterexample :
  describe_instance_types Sample.world_no_platform "us-west-2" "g6.xlarge"
    = CliOk {| InstanceTypes := Some [Sample.g6_xlarge_no_platform] |} ∧
  SupportedPlatforms Sample.g6_xlarge_no_platform = Some [] ∧
  process_instance_type Sample.world_no_platform "us-west-2" "g6.xlarge"
    Sample.all_azs = Ret (Some Sample.g6_record) ∧
  operatingSystems Sample.g6_record = ["linux"] ∧
  operatingSystems Sample.g6_record ≠ lower <$> [].
Proof. repeat split; try (vm_compute; reflexivity). discriminate. Qed.

Lemma pods_of_record_witness :
  (∀ ninfo n, NetworkInfo Sample.g6_xlarge = Some ninfo →
     MaximumNetworkInterfaces ninfo = Some n →
     pods (resources Sample.g6_record) = str (n * 10)) ∧
  (∀ ninfo, NetworkInfo Sample.g6_xlarge = Some ninfo →
     MaximumNetworkInterfaces ninfo = Some 4%Z →
     pods (resources Sample.g6_record) = "40") ∧
  (NetworkInfo Sample.g6_xlarge = None
   ∨ (∃ ninfo, NetworkInfo Sample.g6_xlarge = Some ninfo
               ∧ MaximumNetworkInterfaces ninfo = None) →
     pods (resources Sample.g6_record) = "80").
Proof.
  apply (pods_of_record Sample.world_ok "us-west-2" "g6.xlarge"
           Sample.all_azs Sample.g6_record
           {| InstanceTypes := Some [Sample.g6_xlarge] |} Sample.g6_xlarge []);
    vm_compute; reflexivity.
Defined.

Lemma size_suffix_resolves_as_bare_family_witness :
  sub_size_suffix ("g6" +:+ String dot (String "2" "xlarge")) = "g6" ∧
  sub_size_suffix "g6" = "g6" ∧
  get_instance_types_for_family Sample.world_two "us-west-2"
    (sub_size_suffix ("g6" +:+ String dot (String "2" "xlarge")))
  = get_instance_types_for_family Sample.world_two "us-west-2" (sub_size_suffix "g6") ∧
  resolve_families Sample.world_two "us-west-2"
    [("g6" +:+ String dot (String "2" "xlarge")); "m5"] []
  = resolve_families Sample.world_two "us-west-2" ["g6"; "m5"] [].
Proof.
  destruct (size_suffix_resolves_as_bare_family "g6" "xlarge" "2")
    as (Hsub & Hbare & Hquery & Hresolve); [vm_compute; reflexivity..|].
  split; [exact Hsub|]. split; [exact Hbare|].
  split; [apply Hquery | apply Hresolve].
Defined.

Lemma no_instance_types_exits_nonzero_witness :
  exit_status (main reverse Sample.world_ok Sample.args_m5) ≠ 0%Z ∧
  written (main reverse Sample.world_ok Sample.args_m5) = None.
Proof.
  apply (no_instance_types_exits_nonzero reverse Sample.world_ok Sample.args_m5).
  intros family Hin.
  apply elem_of_cons in Hin as [-> | Hin]; [vm_compute; reflexivity|].
  apply elem_of_cons in Hin as [-> | Hin]; [vm_compute; reflexivity|].
  by apply elem_of_nil in Hin.
Defined.

Lemma spot_offerings_of_record_witness :
  (observed_prices (Some "us-west-2a") (spot_price_history Sample.world_ok "us-west-2" "g6.xlarge")
     = [] →
     filter (is_spot_offering_for "us-west-2a") (offerings Sample.g6_record) = []) ∧
  (observed_prices (Some "us-west-2a") (spot_price_history Sample.world_ok "us-west-2" "g6.xlarge")
     ≠ [] →
     ∃ p,
       p ∈ observed_prices (Some "us-west-2a")
             (spot_price_history Sample.world_ok "us-west-2" "g6.xlarge") ∧
       (∀ q, q ∈ observed_prices (Some "us-west-2a")
                   (spot_price_history Sample.world_ok "us-west-2" "g6.xlarge") →
             SFltb q p = false) ∧
       (float_truthy p = true →
          filter (is_spot_offering_for "us-west-2a") (offerings Sample.g6_record)
          = replicate (occurrences "us-west-2a" Sample.all_azs)
              (spot_offering p true "us-west-2a") ∧
          (NoDup Sample.all_azs → "us-west-2a" ∈ Sample.all_azs →
             filter (is_spot_offering_for "us-west-2a") (offerings Sample.g6_record)
             = [spot_offering p true "us-west-2a"])) ∧
       (float_truthy p = false →
          filter (is_spot_offering_for "us-west-2a") (offerings Sample.g6_record) = [])).
Proof.
  apply (spot_offerings_of_record Sample.world_ok "us-west-2" "g6.xlarge"
           Sample.all_azs Sample.g6_record "us-west-2a").
  vm_compute. reflexivity.
Defined.

(** C1, as stated, fails for a zone whose lowest price is zero: the query
    returned a price entry for the zone, and the record holds no spot
    Offering for it. *)
Lemma spot_offering_zero_price_counterexample :
  process_instance_type Sample.world_ok "us-west-2" "g6.xlarge" Sample.all_azs
    = Ret (Some Sample.g6_record) ∧
  "us-west-2b" ∈ Sample.all_azs ∧
  observed_prices (Some "us-west-2b") (spot_price_history Sample.world_ok "us-west-2" "g6.xlarge")
    = [float_zero] ∧
  filter (is_spot_offering_for "us-west-2b") (offerings Sample.g6_record) = [].
Proof.
  split; [vm_compute; reflexivity|].
  split; [right; left|].
  split; vm_compute; reflexivity.
Qed.

Lemma on_demand_offerings_of_record_witness :
  ∃ on_demand_price,
    get_on_demand_price Sample.world_ok "us-west-2" "g6.xlarge" = Ret on_demand_price ∧
    (∀ p, on_demand_price = Some p → float_truthy p = true →
       filter is_on_demand_offering (offerings Sample.g6_record)
       = on_demand_offering p <$> Sample.all_azs ∧
       ∀ o, o ∈ filter is_on_demand_offering (offerings Sample.g6_record) →
            Price o = p ∧ Available o = true) ∧
    (on_demand_price = None →
       filter is_on_demand_offering (offerings Sample.g6_record) = []) ∧
    (∀ p, on_demand_price = Some p → float_truthy p = false →
       filter is_on_demand_offering (offerings Sample.g6_record) = []).
Proof.
  apply (on_demand_offerings_of_record Sample.world_ok "us-west-2" "g6.xlarge"
           Sample.all_azs Sample.g6_record).
  vm_compute. reflexivity.
Defined.

(** C2, as stated, fails for an on-demand price of zero: the price is
    found, and the record holds no on-demand Offering for the two zones. *)
Lemma on_demand_zero_price_counterexample :
  process_instance_type Sample.world_free "us-west-2" "g6.xlarge" Sample.all_azs
    = Ret (Some Sample.g6_record_free) ∧
  get_on_demand_price Sample.world_free "us-west-2" "g6.xlarge" = Ret (Some float_zero) ∧
  length Sample.all_azs = 2 ∧
  filter is_on_demand_offering (offerings Sample.g6_record_free) = [].
Proof. repeat split; vm_compute; reflexivity. Qed.

Lemma zero_price_emits_no_offering_witness :
  (∀ o, o ∈ offerings Sample.g6_record_free → float_truthy (Price o) = true) ∧
  (∀ (spot_prices : gmap (option string) spot_info) az info sign,
     get_spot_prices Sample.world_free "us-west-2" "g6.xlarge" = Ret spot_prices →
     spot_prices !! Some az = Some info →
     price info = Some (S754_zero sign) →
     filter (is_spot_offering_for az) (offerings Sample.g6_record_free) = []) ∧
  (∀ sign,
     get_on_demand_price Sample.world_free "us-west-2" "g6.xlarge" = Ret (Some (S754_zero sign)) →
     filter is_on_demand_offering (offerings Sample.g6_record_free) = []).
Proof.
  apply (zero_price_emits_no_offering Sample.world_free "us-west-2" "g6.xlarge"
           Sample.all_azs Sample.g6_record_free).
  vm_compute. reflexivity.
Defined.

(** The price kept for the second zone of the sample is zero. *)
Example sample_spot_prices :
  get_spot_prices Sample.world_free "us-west-2" "g6.xlarge"
  = Ret (<[Some "us-west-2a" := stored Sample.quarter]>
           (<[Some "us-west-2b" := stored float_zero]> ∅)).
Proof. vm_compute. reflexivity. Qed.

Lemma raising_worker_is_left_out_witness :
  ∃ results,
    main reverse Sample.world_two Sample.args
      = {| exit_status := 0; written := Some (output Sample.args, results) |} ∧
    results =
      omap record_of
        ((λ instance_type,
            process_instance_type Sample.world_two (region Sample.args) instance_type
              Sample.all_azs)
           <$> filter (λ x, x ≠ "g6.2xlarge") (reverse ["g6.xlarge"; "g6.2xlarge"])) ∧
    (∀ r, r ∈ results → name r ≠ "g6.2xlarge") ∧
    (∀ it' r', it' ∈ ["g6.xlarge"; "g6.2xlarge"] →
       process_instance_type Sample.world_two (region Sample.args) it' Sample.all_azs
         = Ret (Some r') →
       r' ∈ results).
Proof.
  apply (raising_worker_is_left_out reverse Sample.world_two Sample.args
           Sample.all_azs ["g6.xlarge"; "g6.2xlarge"] "g6.2xlarge" IndexError).
  - intros l. apply reverse_Permutation.
  - vm_compute. reflexivity.
  - vm_compute. reflexivity.
  - vm_compute. reflexivity.
  - vm_compute. reflexivity.
  - right. left.
  - vm_compute. reflexivity.
  - intros it' code Hin.
    apply elem_of_cons in Hin as [-> | Hin]; [vm_compute; discriminate|].
    apply list_elem_of_singleton in Hin as ->. vm_compute. discriminate.
Defined.

(** C9, as stated, fails in a batch where another enrichment ends the
    process: the enrichment of [g6.2xlarge] raises, that of [g6.xlarge]
    returns a record, and the run, ended by the failing hardware query of
    [g6.12xlarge], writes nothing, so that the record does not appear. *)
Lemma raising_worker_counterexample :
  get_availability_zones Sample.world_three (region Sample.args) = Ret Sample.all_azs ∧
  resolve_families Sample.world_three (region Sample.args) (instance_families Sample.args) []
    = Ret ["g6.xlarge"; "g6.2xlarge"; "g6.12xlarge"] ∧
  process_instance_type Sample.world_three (region Sample.args) "g6.2xlarge" Sample.all_azs
    = Raise IndexError ∧
  process_instance_type Sample.world_three (region Sample.args) "g6.xlarge" Sample.all_azs
    = Ret (Some Sample.g6_record) ∧
  (∀ as_completed, (∀ l, as_completed l ≡ₚ l) →
     main as_completed Sample.world_three Sample.args
     = {| exit_status := 1; written := None |}).
Proof.
  split; [vm_compute; reflexivity|]. split; [vm_compute; reflexivity|].
  split; [vm_compute; reflexivity|]. split; [vm_compute; reflexivity|].
  intros as_completed Hperm.
  apply (exiting_worker_ends_run as_completed Sample.world_three Sample.args
           Sample.all_azs ["g6.xlarge"; "g6.2xlarge"; "g6.12xlarge"] "g6.12xlarge" 1).
  - exact Hperm.
  - vm_compute. reflexivity.
  - vm_compute. reflexivity.
  - vm_compute. reflexivity.
  - right. right. left.
  - vm_compute. reflexivity.
Qed.

Lemma spot_query_failure_keeps_record_witness :
  get_spot_prices Sample.world_spot_down (region Sample.args) "g6.xlarge" = Ret ∅ ∧
  ∃ r,
    process_instance_type Sample.world_spot_down (region Sample.args)
      "g6.xlarge" Sample.all_azs = Ret (Some r) ∧
    name r = "g6.xlarge" ∧
    offerings r = on_demand_offerings (Some Sample.one) Sample.all_azs ∧
    (∀ az, filter (is_spot_offering_for az) (offerings r) = []) ∧
    (∀ path results,
       written (main reverse Sample.world_spot_down Sample.args)
         = Some (path, results) →
       r ∈ results).
Proof.
  apply (spot_query_failure_keeps_record reverse Sample.world_spot_down
           Sample.args Sample.all_azs ["g6.xlarge"] "g6.xlarge"
           {| det_architecture := "amd64";
              det_operatingSystems := ["linux"];
              det_resources := Sample.g6_resources |}
           (Some Sample.one)).
  - intros l. apply reverse_Permutation.
  - vm_compute. reflexivity.
  - vm_compute. reflexivity.
  - left.
  - left. vm_compute. reflexivity.
  - vm_compute. reflexivity.
  - vm_compute. reflexivity.
Defined.

(** C3, as stated, fails: the spot-price query of the instance type
    fails, and its record is in the results that the run writes. *)
Lemma spot_query_failure_counterexample :
  describe_spot_price_history Sample.world_spot_down "us-west-2" "g6.xlarge"
    = CalledProcessError ∧
  main reverse Sample.world_spot_down Sample.args
    = {| exit_status := 0;
         written := Some ("instance_types.json", [Sample.g6_record_spot_down]) |} ∧
  name Sample.g6_record_spot_down = "g6.xlarge".
Proof. repeat split; vm_compute; reflexivity. Qed.

(** *** The further properties at the sample region *)

(** A memory size beyond the floats: the division raises
    [OverflowError], so that no details are returned, although the
    architecture has its default; the run, which has no other instance
    type, writes an empty list. *)
Example sample_huge_memory :
  ProcessorInfo Sample.g6_48xlarge = None ∧
  get_instance_details Sample.world_huge_memory "us-west-2" "g6.48xlarge"
    = Raise OverflowError ∧
  process_instance_type Sample.world_huge_memory "us-west-2" "g6.48xlarge" Sample.all_azs
    = Raise OverflowError ∧
  main reverse Sample.world_huge_memory Sample.args
    = {| exit_status := 0; written := Some ("instance_types.json", []) |}.
Proof. repeat split; vm_compute; reflexivity. Qed.

(** An output path in a directory that does not exist: [open] raises, the
    run ends with status 1 and writes nothing. *)
Example sample_missing_directory :
  main_results reverse Sample.world_ok Sample.args_missing_dir = Ret [Sample.g6_record] ∧
  script reverse Sample.world_ok (Parsed Sample.args_missing_dir)
    = {| exit_status := 1; written := None |}.
Proof. split; vm_compute; reflexivity. Qed.

(** A command line that the parser rejects, and a call for help. *)
Example sample_parser_exits :
  exit_status (script reverse Sample.world_ok UsageExit) = 2%Z ∧
  script reverse Sample.world_ok HelpExit = {| exit_status := 0; written := None |}.
Proof. split; reflexivity. Qed.

(** The memory texts of some sizes in MiB. *)
Example sample_memory_texts :
  memory_gib_text 16384 = Ret "16.0Gi" ∧
  memory_gib_text 512 = Ret "0.5Gi" ∧
  memory_gib_text 1000 = Ret "0.9765625Gi" ∧
  memory_gib_text 100 = Ret "0.09765625Gi" ∧
  memory_gib_text 1 = Ret "0.0009765625Gi" ∧
  memory_gib_text 3 = Ret "0.0029296875Gi" ∧
  memory_gib_text (10 ^ 20) = Ret "9.765625e+16Gi" ∧
  memory_gib_text (-1536) = Ret "-1.5Gi" ∧
  memory_gib_text (10 ^ 400) = Raise OverflowError.
Proof. repeat split; vm_compute; reflexivity. Qed.

Example sample_record_no_processor :
  process_instance_type Sample.world_no_processor "us-west-2" "g6.4xlarge"
    Sample.all_azs
  = Ret (Some Sample.g6_4xlarge_record).
Proof. vm_compute. reflexivity. Qed.

(** A family requested twice, once with a size suffix, gives its records
    twice; the instance type that raises is left out each time. *)
Example sample_main_duplicates :
  main reverse Sample.world_two Sample.args_m5_g6
  = {| exit_status := 0;
       written := Some ("instance_types.json", [Sample.g6_record; Sample.g6_record]) |}.
Proof. vm_compute. reflexivity. Qed.

Lemma sub_size_suffix_no_dot_digit_witness : sub_size_suffix "g6.xlarge" = "g6.xlarge".
Proof. apply (sub_size_suffix_no_dot_digit "g6.xlarge"). vm_compute. reflexivity. Defined.

Lemma sub_size_suffix_no_newline_witness :
  (∃ t, "g6.2xlarge.4" = sub_size_suffix "g6.2xlarge.4" +:+ t) ∧
  has_dot_digit (sub_size_suffix "g6.2xlarge.4") = false ∧
  sub_size_suffix (sub_size_suffix "g6.2xlarge.4") = sub_size_suffix "g6.2xlarge.4".
Proof. apply (sub_size_suffix_no_newline "g6.2xlarge.4"). vm_compute. reflexivity. Defined.

Lemma resolve_families_concat_witness :
  resolve_families Sample.world_two "us-west-2" ["g6"; "m5"; "g6.2xlarge"] []
  = Ret ([] ++ concat [["g6.xlarge"; "g6.2xlarge"]; []; ["g6.xlarge"; "g6.2xlarge"]]).
Proof.
  apply (resolve_families_concat Sample.world_two "us-west-2" ["g6"; "m5"; "g6.2xlarge"]
           [["g6.xlarge"; "g6.2xlarge"]; []; ["g6.xlarge"; "g6.2xlarge"]] []).
  repeat (constructor; [vm_compute; reflexivity|]). constructor.
Defined.

Lemma get_spot_prices_entries_witness :
  (is_Some ((<[Some "us-west-2a" := stored Sample.quarter]>
               (<[Some "us-west-2b" := stored float_zero]> ∅)
             : gmap (option string) spot_info) !! Some "us-west-2a")
   ↔ ∃ pi, pi ∈ spot_price_history Sample.world_ok "us-west-2" "g6.xlarge"
           ∧ AvailabilityZone pi = Some "us-west-2a") ∧
  (∀ info,
     (<[Some "us-west-2a" := stored Sample.quarter]>
        (<[Some "us-west-2b" := stored float_zero]> ∅)
      : gmap (option string) spot_info) !! Some "us-west-2a" = Some info →
     available info = true ∧
     ∃ p, price info = Some p ∧
          p ∈ observed_prices (Some "us-west-2a")
                (spot_price_history Sample.world_ok "us-west-2" "g6.xlarge")).
Proof.
  apply (get_spot_prices_entries Sample.world_ok "us-west-2" "g6.xlarge" _
           ltac:(vm_compute; reflexivity) (Some "us-west-2a")).
Defined.

Lemma unknown_instance_type_is_skipped_witness :
  get_instance_details Sample.world_unknown "us-west-2" "g6.8xlarge"
    = Ret None ∧
  process_instance_type Sample.world_unknown "us-west-2" "g6.8xlarge"
    Sample.all_azs = Ret None.
Proof.
  apply (unknown_instance_type_is_skipped Sample.world_unknown "us-west-2"
           "g6.8xlarge" Sample.all_azs {| InstanceTypes := Some [] |});
    vm_compute; reflexivity.
Defined.

Lemma architecture_default_witness :
  ((∃ d, get_instance_details Sample.world_no_processor "us-west-2" "g6.4xlarge"
           = Ret (Some d) ∧
         det_architecture d = "amd64")
   ↔ ∃ quotient,
       div_1024 (default 0%Z (SizeInMiB (default no_memory_info
                                           (MemoryInfo Sample.g6_4xlarge))))
         = Ret quotient) ∧
  (∀ all_azs r,
     process_instance_type Sample.world_no_processor "us-west-2" "g6.4xlarge" all_azs
       = Ret (Some r) →
     architecture r = "amd64").
Proof.
  apply (architecture_default Sample.world_no_processor "us-west-2"
           "g6.4xlarge" {| InstanceTypes := Some [Sample.g6_4xlarge] |} Sample.g6_4xlarge []).
  - vm_compute. reflexivity.
  - reflexivity.
  - left. reflexivity.
Defined.

Lemma empty_architectures_raise_witness :
  get_instance_details Sample.world_two "us-west-2" "g6.2xlarge"
    = Raise IndexError ∧
  process_instance_type Sample.world_two "us-west-2" "g6.2xlarge"
    Sample.all_azs = Raise IndexError.
Proof.
  apply (empty_architectures_raise Sample.world_two "us-west-2" "g6.2xlarge"
           Sample.all_azs {| InstanceTypes := Some [Sample.g6_2xlarge] |} Sample.g6_2xlarge []
           {| SupportedArchitectures := Some [] |});
    vm_compute; reflexivity.
Defined.

Lemma cpu_memory_of_record_witness :
  cpu (resources Sample.g6_record)
    = str (default 0%Z (DefaultVCpus (default no_vcpu_info (VCpuInfo Sample.g6_xlarge)))) ∧
  (VCpuInfo Sample.g6_xlarge = None → cpu (resources Sample.g6_record) = "0") ∧
  (∃ quotient,
     div_1024 (default 0%Z (SizeInMiB (default no_memory_info (MemoryInfo Sample.g6_xlarge))))
       = Ret quotient ∧
     memory (resources Sample.g6_record) = float_repr quotient +:+ "Gi") ∧
  (∀ minfo, MemoryInfo Sample.g6_xlarge = Some minfo → SizeInMiB minfo = Some 16384%Z →
     memory (resources Sample.g6_record) = "16.0Gi") ∧
  (MemoryInfo Sample.g6_xlarge = None
   ∨ (∃ minfo, MemoryInfo Sample.g6_xlarge = Some minfo ∧ SizeInMiB minfo = None) →
     memory (resources Sample.g6_record) = "0.0Gi").
Proof.
  apply (cpu_memory_of_record Sample.world_ok "us-west-2" "g6.xlarge" Sample.all_azs
           Sample.g6_record {| InstanceTypes := Some [Sample.g6_xlarge] |} Sample.g6_xlarge []);
    vm_compute; reflexivity.
Defined.

Lemma record_invariants_witness :
  name Sample.g6_4xlarge_record = "g6.4xlarge" ∧
  architecture Sample.g6_4xlarge_record ≠ "x86_64" ∧
  operatingSystems Sample.g6_4xlarge_record ≠ [] ∧
  (∀ os, os ∈ operatingSystems Sample.g6_4xlarge_record → lower os = os) ∧
  ephemeral_storage (resources Sample.g6_4xlarge_record) = "20Gi".
Proof.
  apply (record_invariants Sample.world_no_processor "us-west-2"
           "g6.4xlarge" Sample.all_azs Sample.g6_4xlarge_record).
  vm_compute. reflexivity.
Defined.

Lemma offerings_shape_witness :
  Available (spot_offering Sample.quarter true "us-west-2a") = true ∧
  ∃ az, az ∈ Sample.all_azs ∧
        (Requirements (spot_offering Sample.quarter true "us-west-2a")
           = [capacity_type_requirement "spot"; zone_requirement az]
         ∨ Requirements (spot_offering Sample.quarter true "us-west-2a")
           = [capacity_type_requirement "on-demand"; zone_requirement az]).
Proof.
  apply (offerings_shape Sample.world_ok "us-west-2" "g6.xlarge"
           Sample.all_azs Sample.g6_record).
  - vm_compute. reflexivity.
  - left.
Defined.

Lemma offerings_order_witness :
  offerings Sample.g6_record
    = filter (λ o, ¬ is_on_demand_offering o) (offerings Sample.g6_record)
      ++ filter is_on_demand_offering (offerings Sample.g6_record) ∧
  (length (offerings Sample.g6_record) ≤ 2 * length Sample.all_azs)%nat.
Proof.
  apply (offerings_order Sample.world_ok "us-west-2" "g6.xlarge"
           Sample.all_azs Sample.g6_record).
  vm_compute. reflexivity.
Defined.

Lemma main_written_witness :
  "instance_types.json" = output Sample.args ∧
  ∃ all_azs all_instance_types,
    get_availability_zones Sample.world_two (region Sample.args) = Ret all_azs ∧
    resolve_families Sample.world_two (region Sample.args) (instance_families Sample.args) []
      = Ret all_instance_types ∧
    all_instance_types ≠ [] ∧
    [Sample.g6_record] =
      omap record_of
        ((λ instance_type,
            process_instance_type Sample.world_two (region Sample.args)
              instance_type all_azs)
           <$> reverse all_instance_types) ∧
    (length [Sample.g6_record] ≤ length all_instance_types)%nat ∧
    (∀ r, r ∈ [Sample.g6_record] → name r ∈ all_instance_types).
Proof.
  apply (main_written reverse Sample.world_two Sample.args
           "instance_types.json" [Sample.g6_record]).
  - intros l. apply reverse_Permutation.
  - vm_compute. reflexivity.
Defined.

Lemma main_writes_returned_records_witness :
  ∃ results,
    main_results reverse Sample.world_ok Sample.args = Ret results ∧
    results ≡ₚ
      omap record_of
        ((λ instance_type,
            process_instance_type Sample.world_ok (region Sample.args)
              instance_type Sample.all_azs)
           <$> ["g6.xlarge"]) ∧
    (open_for_writing Sample.world_ok (output Sample.args) = true →
       main reverse Sample.world_ok Sample.args
       = {| exit_status := 0; written := Some (output Sample.args, results) |}) ∧
    (open_for_writing Sample.world_ok (output Sample.args) = false →
       main reverse Sample.world_ok Sample.args = {| exit_status := 1; written := None |}).
Proof.
  apply (main_writes_returned_records reverse Sample.world_ok Sample.args
           Sample.all_azs ["g6.xlarge"]).
  - intros l. apply reverse_Permutation.
  - vm_compute. reflexivity.
  - vm_compute. reflexivity.
  - discriminate.
  - vm_compute. reflexivity.
  - intros it code Hin. apply list_elem_of_singleton in Hin as ->. vm_compute. discriminate.
Defined.

Lemma failing_hardware_query_ends_run_witness :
  main reverse Sample.world_hardware_down Sample.args
  = {| exit_status := 1; written := None |}.
Proof.
  apply (failing_hardware_query_ends_run reverse Sample.world_hardware_down
           Sample.args Sample.all_azs ["g6.xlarge"; "g6.2xlarge"] "g6.2xlarge").
  - intros l. apply reverse_Permutation.
  - vm_compute. reflexivity.
  - vm_compute. reflexivity.
  - vm_compute. reflexivity.
  - right. left.
  - left. vm_compute. reflexivity.
Defined.

Lemma no_workers_ends_run_witness :
  main reverse Sample.world_ok Sample.args_no_workers
  = {| exit_status := 1; written := None |}.
Proof.
  apply (no_workers_ends_run reverse Sample.world_ok Sample.args_no_workers
           Sample.all_azs ["g6.xlarge"]).
  - vm_compute. reflexivity.
  - vm_compute. reflexivity.
  - discriminate.
  - vm_compute. discriminate.
Defined.

Lemma unknown_instance_type_is_left_out_witness :
  main_results reverse Sample.world_unknown Sample.args =
    collect_results
      ((λ instance_type,
          process_instance_type Sample.world_unknown (region Sample.args)
            instance_type Sample.all_azs)
         <$> filter (λ x, x ≠ "g6.8xlarge") (reverse ["g6.xlarge"; "g6.8xlarge"]))
      [] ∧
  ∀ path results,
    written (main reverse Sample.world_unknown Sample.args)
      = Some (path, results) →
    ∀ r, r ∈ results → name r ≠ "g6.8xlarge".
Proof.
  apply (unknown_instance_type_is_left_out reverse Sample.world_unknown
           Sample.args Sample.all_azs ["g6.xlarge"; "g6.8xlarge"] "g6.8xlarge"
           {| InstanceTypes := Some [] |}).
  - vm_compute. reflexivity.
  - vm_compute. reflexivity.
  - vm_compute. reflexivity.
  - right. left.
  - vm_compute. reflexivity.
  - reflexivity.
Defined.

Lemma empty_family_is_passed_over_witness :
  resolve_families Sample.world_two "us-west-2" (["g6"] ++ "m5" :: ["g6.2xlarge"]) []
  = resolve_families Sample.world_two "us-west-2" (["g6"] ++ ["g6.2xlarge"]) [].
Proof.
  apply (empty_family_is_passed_over Sample.world_two "us-west-2" ["g6"] "m5" ["g6.2xlarge"] []).
  vm_compute. reflexivity.
Defined.
